(** * Push notifications: rate limiter and quiet hours

    A shallow embedding of [apps/server/src/services/pushRateLimiter.ts]:
    the Lua script [RATE_LIMIT_SCRIPT] with the Redis commands it issues,
    the class [PushRateLimiter] that wraps it, and the class
    [QuietHoursService].

    Numbers.  The counters, caps and TTLs of the rate limiter are integers;
    JavaScript and Lua hold them in binary64, which is exact below 2^53, so
    they are modelled in [Z].  Instants are milliseconds since the epoch.

    Surroundings.  The key builders of [REDIS_KEYS], the wall clock and
    [Intl.DateTimeFormat] are parameters of the development. *)

From Stdlib Require Import ZArith QArith Ascii Lia.
From stdpp Require Import base option list strings gmap pretty.

Local Open Scope Z_scope.

(** ** The window store

    The part of Redis the script relies on: string keys holding an integer
    (the limiter writes its keys with [INCR] only) and an optional expiry
    instant.  A key whose expiry has passed is invisible to every command
    (Redis expires lazily, on access), so reads go through [find].
    Commands run at one instant [now]; a script runs atomically and sees a
    single instant for all its commands. *)
Module Redis.

Record entry := Entry { value : Z; expireAt : option Z }.

Abbreviation db := (gmap string entry).

(** The store's state monad: a command maps a database to a reply and
    the database it leaves. *)
Definition cmd (A : Type) : Type := db -> A * db.

#[global] Instance ret : MRet cmd := fun A a d => (a, d).

#[global] Instance bind : MBind cmd :=
  fun A B k c d => let (a, d') := c d in k a d'.

(** A key is gone once the clock is past its expiry instant. *)
Definition expired (now : Z) (e : entry) : bool :=
  match expireAt e with
  | Some t => t <? now
  | None => false
  end.

Definition find (now : Z) (k : string) (d : db) : option entry :=
  match d !! k with
  | Some e => if expired now e then None else Some e
  | None => None
  end.

(** [GET key]: the value, or nil. *)
Definition GET (now : Z) (k : string) : cmd (option Z) :=
  fun d => (value <$> find now k d, d).

(** [TTL key]: -2 if the key does not exist, -1 if it has no expiry,
    else the remaining time rounded to the nearest second. *)
Definition TTL (now : Z) (k : string) : cmd Z :=
  fun d =>
    (match find now k d with
     | None => -2
     | Some e =>
         match expireAt e with
         | None => -1
         | Some t => (t - now + 500) / 1000
         end
     end, d).

(** [INCR key]: add one, creating the key at 0 (without expiry) first if
    it does not exist; the expiry of an existing key is kept. *)
Definition INCR (now : Z) (k : string) : cmd Z :=
  fun d =>
    match find now k d with
    | Some e => (value e + 1, <[k := Entry (value e + 1) (expireAt e)]> d)
    | None => (1, <[k := Entry 1 None]> d)
    end.

(** [EXPIRE key seconds]: 0 if the key does not exist, else set the
    expiry [seconds] from now (a non-positive timeout deletes the key). *)
Definition EXPIRE (now : Z) (k : string) (seconds : Z) : cmd Z :=
  fun d =>
    match find now k d with
    | None => (0, d)
    | Some e =>
        if seconds <=? 0 then (1, delete k d)
        else (1, <[k := Entry (value e) (Some (now + seconds * 1000))]> d)
    end.

(** [DEL key1 key2]: remove both, reply with the number removed. *)
Definition DEL (now : Z) (k1 k2 : string) : cmd Z :=
  fun d =>
    let n1 := if find now k1 d is Some _ then 1 else 0 in
    let n2 := if find now k2 (delete k1 d) is Some _ then 1 else 0 in
    (n1 + n2, delete k2 (delete k1 d)).

End Redis.

(** ** Rate limiter *)

(** [REDIS_KEYS] comes from the shared package; the limiter uses its two
    key builders and nothing else of it. *)
Record RedisKeys := {
  PUSH_RATE_MINUTE : string -> string;
  PUSH_RATE_HOUR : string -> string
}.

Inductive Limit := minute | hour.

Record RateLimitResult := {
  allowed : bool;
  remainingMinute : Z;
  remainingHour : Z;
  resetMinuteIn : Z;
  resetHourIn : Z;
  exceededLimit : option Limit
}.

Record RateLimitPrefs := {
  maxPerMinute : Z;
  maxPerHour : Z
}.

(** The status record of [getStatus]: a result without [allowed] and
    [exceededLimit]. *)
Record RateLimitStatus := {
  statusRemainingMinute : Z;
  statusRemainingHour : Z;
  statusResetMinuteIn : Z;
  statusResetHourIn : Z
}.

(** The reply of the script:
    [allowed, minuteCount, hourCount, minuteTTL, hourTTL, exceededLimit]. *)
Definition reply : Type := Z * Z * Z * Z * Z * Z.

(** [tonumber(redis.call('GET', key) or '0')]; the same number is
    [parseInt(v ?? '0', 10)] in [getStatus].  The caps reach the script as
    [ARGV] strings and are read back with [tonumber], which returns the
    integer that was written. *)
Definition count_of (v : option Z) : Z := default 0 v.

Definition RATE_LIMIT_SCRIPT (now : Z) (minuteKey hourKey : string)
    (maxPerMinute maxPerHour : Z) : Redis.cmd reply :=
  minuteGet ← Redis.GET now minuteKey;
  hourGet ← Redis.GET now hourKey;
  let minuteCount := count_of minuteGet in
  let hourCount := count_of hourGet in
  minuteTTL ← Redis.TTL now minuteKey;
  hourTTL ← Redis.TTL now hourKey;
  if minuteCount >=? maxPerMinute then
    mret (0, minuteCount, hourCount, minuteTTL, hourTTL, 1)
  else if hourCount >=? maxPerHour then
    mret (0, minuteCount, hourCount, minuteTTL, hourTTL, 2)
  else
    newMinuteCount ← Redis.INCR now minuteKey;
    minuteTTL' ← (if minuteTTL <? 0
                  then Redis.EXPIRE now minuteKey 60 ;; mret 60
                  else mret minuteTTL);
    newHourCount ← Redis.INCR now hourKey;
    hourTTL' ← (if hourTTL <? 0
                then Redis.EXPIRE now hourKey 3600 ;; mret 3600
                else mret hourTTL);
    mret (1, newMinuteCount, newHourCount, minuteTTL', hourTTL', 0).

Section PushRateLimiter.

Variable REDIS_KEYS : RedisKeys.

Definition checkAndRecord (now : Z) (mobileSessionId : string)
    (prefs : RateLimitPrefs) : Redis.cmd RateLimitResult :=
  let minuteKey := PUSH_RATE_MINUTE REDIS_KEYS mobileSessionId in
  let hourKey := PUSH_RATE_HOUR REDIS_KEYS mobileSessionId in
  result ← RATE_LIMIT_SCRIPT now minuteKey hourKey
             (maxPerMinute prefs) (maxPerHour prefs);
  let '(allowed, minuteCount, hourCount, minuteTTL, hourTTL, exceededLimit) :=
    result in
  let remainingMinute := Z.max 0 (maxPerMinute prefs - minuteCount) in
  let remainingHour := Z.max 0 (maxPerHour prefs - hourCount) in
  let resetMinuteIn := if minuteTTL >? 0 then minuteTTL else 60 in
  let resetHourIn := if hourTTL >? 0 then hourTTL else 3600 in
  if allowed =? 0 then
    mret {|
      allowed := false;
      remainingMinute := if exceededLimit =? 1 then 0 else remainingMinute;
      remainingHour := if exceededLimit =? 2 then 0 else remainingHour;
      resetMinuteIn := resetMinuteIn;
      resetHourIn := resetHourIn;
      exceededLimit := Some (if exceededLimit =? 1 then minute else hour)
    |}
  else
    mret {|
      allowed := true;
      remainingMinute := remainingMinute;
      remainingHour := remainingHour;
      resetMinuteIn := resetMinuteIn;
      resetHourIn := resetHourIn;
      exceededLimit := None
    |}.

(** The four reads of [getStatus] are separate commands; they are taken
    here against one state of the store at one instant. *)
Definition getStatus (now : Z) (mobileSessionId : string)
    (prefs : RateLimitPrefs) : Redis.cmd RateLimitStatus :=
  let minuteKey := PUSH_RATE_MINUTE REDIS_KEYS mobileSessionId in
  let hourKey := PUSH_RATE_HOUR REDIS_KEYS mobileSessionId in
  minuteGet ← Redis.GET now minuteKey;
  hourGet ← Redis.GET now hourKey;
  minuteTTL ← Redis.TTL now minuteKey;
  hourTTL ← Redis.TTL now hourKey;
  let minuteCount := count_of minuteGet in
  let hourCount := count_of hourGet in
  mret {|
    statusRemainingMinute := Z.max 0 (maxPerMinute prefs - minuteCount);
    statusRemainingHour := Z.max 0 (maxPerHour prefs - hourCount);
    statusResetMinuteIn := if minuteTTL >? 0 then minuteTTL else 60;
    statusResetHourIn := if hourTTL >? 0 then hourTTL else 3600
  |}.

Definition reset (now : Z) (mobileSessionId : string) : Redis.cmd unit :=
  let minuteKey := PUSH_RATE_MINUTE REDIS_KEYS mobileSessionId in
  let hourKey := PUSH_RATE_HOUR REDIS_KEYS mobileSessionId in
  Redis.DEL now minuteKey hourKey ;; mret tt.

(** A sequence of [checkAndRecord] calls of one session under fixed
    preferences, one call per instant of [times], each on the store the
    previous one left. *)
Fixpoint calls (mobileSessionId : string) (prefs : RateLimitPrefs)
    (times : list Z) : Redis.cmd (list RateLimitResult) :=
  match times with
  | [] => mret []
  | now :: rest =>
      r ← checkAndRecord now mobileSessionId prefs;
      rs ← calls mobileSessionId prefs rest;
      mret (r :: rs)
  end.

End PushRateLimiter.

(** How many results of a sequence were allowed. *)
Definition allowedCount (rs : list RateLimitResult) : Z :=
  Z.of_nat (length (filter (fun r => allowed r = true) rs)).

(** ** JavaScript values used by the quiet-hours service *)
Module JS.

(** Number values.  Finite values are kept exact; JavaScript rounds
    them to binary64, which changes nothing for integers below 2^53 and
    so for every value a two-digit hour or minute produces.  A value that
    is NaN here is NaN in JavaScript. *)
Inductive number := NaN | Fin (q : Q) | Inf (negative : bool).

Definition mul (a b : number) : number :=
  match a, b with
  | NaN, _ | _, NaN => NaN
  | Fin x, Fin y => Fin (Qmult x y)
  | Inf s, Fin y | Fin y, Inf s =>
      if Qeq_bool y 0 then NaN else Inf (xorb s (negb (Qle_bool 0 y)))
  | Inf s, Inf s' => Inf (xorb s s')
  end.

Definition add (a b : number) : number :=
  match a, b with
  | NaN, _ | _, NaN => NaN
  | Fin x, Fin y => Fin (Qplus x y)
  | Inf s, Fin _ | Fin _, Inf s => Inf s
  | Inf s, Inf s' => if Bool.eqb s s' then Inf s else NaN
  end.

(** [a <= b]; every comparison with NaN is false. *)
Definition le (a b : number) : bool :=
  match a, b with
  | NaN, _ | _, NaN => false
  | Fin x, Fin y => Qle_bool x y
  | Inf s, Fin _ => s
  | Fin _, Inf s => negb s
  | Inf s, Inf s' => s || negb s'
  end.

(** [a < b] *)
Definition lt (a b : number) : bool :=
  match a, b with
  | NaN, _ | _, NaN => false
  | _, _ => negb (le b a)
  end.

Definition ge (a b : number) : bool := le b a.
Definition gt (a b : number) : bool := lt b a.

(** Strings are taken as their UTF-8 bytes. *)
Definition bytes (s : string) : list Z :=
  (λ c, Z.of_N (Ascii.N_of_ascii c)) <$> String.list_ascii_of_string s.

(** The white space and line terminators that [Number] strips: TAB, LF,
    VT, FF, CR, SP, U+00A0, U+1680, U+2000..U+200A, U+2028, U+2029,
    U+202F, U+205F, U+3000, U+FEFF. *)
Definition StrWhiteSpaceChar : list (list Z) :=
  [ [9]; [10]; [11]; [12]; [13]; [32]; [194; 160]; [225; 154; 128];
    [226; 128; 128]; [226; 128; 129]; [226; 128; 130]; [226; 128; 131];
    [226; 128; 132]; [226; 128; 133]; [226; 128; 134]; [226; 128; 135];
    [226; 128; 136]; [226; 128; 137]; [226; 128; 138]; [226; 128; 168];
    [226; 128; 169]; [226; 128; 175]; [226; 129; 159]; [227; 128; 128];
    [239; 187; 191] ].

Fixpoint starts_with (p l : list Z) : bool :=
  match p, l with
  | [], _ => true
  | a :: p', b :: l' => (a =? b) && starts_with p' l'
  | _ :: _, [] => false
  end.

(** Length of the white-space character at the head of [l]; 0 if none. *)
Definition white_length (chars : list (list Z)) (l : list Z) : nat :=
  match filter (λ p, starts_with p l = true) chars with
  | p :: _ => length p
  | [] => 0%nat
  end.

Fixpoint trim_start (chars : list (list Z)) (skip : nat) (l : list Z)
    : list Z :=
  match l with
  | [] => []
  | _ :: l' =>
      match skip with
      | S n => trim_start chars n l'
      | O =>
          match white_length chars l with
          | O => l
          | S n => trim_start chars n l'
          end
      end
  end.

Definition trim (l : list Z) : list Z :=
  let l1 := trim_start StrWhiteSpaceChar 0 l in
  reverse (trim_start (reverse <$> StrWhiteSpaceChar) 0 (reverse l1)).

Definition digit (base : Z) (c : Z) : option Z :=
  let v :=
    if (48 <=? c) && (c <=? 57) then c - 48
    else if (97 <=? c) && (c <=? 102) then c - 87
    else if (65 <=? c) && (c <=? 70) then c - 55
    else base in
  if v <? base then Some v else None.

(** The longest run of digits at the head of [l]: its value continued
    from [acc], how many digits it has, and what follows it. *)
Fixpoint digits (base : Z) (acc : Z) (n : Z) (l : list Z) : Z * Z * list Z :=
  match l with
  | c :: l' =>
      match digit base c with
      | Some v => digits base (acc * base + v) (n + 1) l'
      | None => (acc, n, l)
      end
  | [] => (acc, n, [])
  end.

(** [0x], [0o] and [0b] literals: digits only, no sign. *)
Definition NonDecimalIntegerLiteral (l : list Z) : option Z :=
  match l with
  | 48 :: p :: l' =>
      let base :=
        if (p =? 120) || (p =? 88) then 16
        else if (p =? 111) || (p =? 79) then 8
        else if (p =? 98) || (p =? 66) then 2
        else 0 in
      let '(v, n, rest) := digits base 0 0 l' in
      match rest with
      | [] => if (0 <? base) && (0 <? n) then Some v else None
      | _ :: _ => None
      end
  | _ => None
  end.

(** The value [m * 10^k]. *)
Definition scale (m k : Z) : Q :=
  if 0 <=? k then Qmake (m * 10 ^ k) 1
  else Qmake m (Z.to_pos (10 ^ (- k))).

(** [ExponentPart], or nothing, up to the end of the literal. *)
Definition ExponentPart (l : list Z) : option Z :=
  match l with
  | [] => Some 0
  | e :: l' =>
      if (e =? 101) || (e =? 69) then
        let '(negative, l'') :=
          match l' with
          | 43 :: r => (false, r)
          | 45 :: r => (true, r)
          | _ => (false, l')
          end in
        let '(x, n, rest) := digits 10 0 0 l'' in
        match rest with
        | [] => if 0 <? n then Some (if negative then - x else x) else None
        | _ :: _ => None
        end
      else None
  end.

(** [StrUnsignedDecimalLiteral]: [Infinity], or digits with an optional
    fraction and exponent, with a digit before or after the point. *)
Definition StrUnsignedDecimalLiteral (l : list Z) : number :=
  if decide (l = bytes "Infinity") then Inf false
  else
    let '(i, ni, r1) := digits 10 0 0 l in
    let '(m, nf, r2) :=
      match r1 with
      | 46 :: r => let '(m, n, r2) := digits 10 i 0 r in (m, n, r2)
      | _ => (i, 0, r1)
      end in
    if 0 <? ni + nf then
      match ExponentPart r2 with
      | Some x => Fin (scale m (x - nf))
      | None => NaN
      end
    else NaN.

Definition neg (a : number) : number :=
  match a with
  | NaN => NaN
  | Fin q => Fin (Qopp q)
  | Inf s => Inf (negb s)
  end.

(** [Number(s)] for a string [s]: white space is trimmed, the empty
    string is 0, a numeric literal is its value, anything else is NaN. *)
Definition Number (s : string) : number :=
  let l := trim (bytes s) in
  match l with
  | [] => Fin 0
  | c :: l' =>
      match NonDecimalIntegerLiteral l with
      | Some v => Fin (Qmake v 1)
      | None =>
          if c =? 43 then StrUnsignedDecimalLiteral l'
          else if c =? 45 then neg (StrUnsignedDecimalLiteral l')
          else StrUnsignedDecimalLiteral l
      end
  end.

(** [s.split(sep)] for a one-character separator. *)
Fixpoint split (sep : Ascii.ascii) (s : string) : list string :=
  match s with
  | EmptyString => [EmptyString]
  | String c s' =>
      if decide (c = sep) then EmptyString :: split sep s'
      else
        match split sep s' with
        | field :: fields => String c field :: fields
        | [] => [String c EmptyString]
        end
  end.

(** An array element that may be missing, as [undefined], taken as an
    operand of arithmetic. *)
Definition ToNumber (v : option number) : number := default NaN v.

End JS.

(** ** Quiet hours *)

(** What the service takes from its host: the wall clock read by
    [new Date()], and [Intl.DateTimeFormat('en-US', {hour: '2-digit',
    minute: '2-digit', hour12: false, timeZone}).format(instant)], which
    is [None] where the constructor raises a RangeError for a time zone
    it does not know. *)
Record Platform := {
  Date_now : Z;
  Intl_format : string -> Z -> option string
}.

Inductive Error := RangeError.

(** How a method call completes. *)
Inductive completion (A : Type) :=
  | Normal (a : A)
  | Throw (e : Error).

Arguments Normal {A} a.
Arguments Throw {A} e.

Record QuietHoursPrefs := {
  quietHoursEnabled : bool;
  quietHoursStart : option string;
  quietHoursEnd : option string;
  quietHoursTimezone : string;
  quietHoursOverrideCritical : bool
}.

Inductive NotificationSeverity := low | warning | high.

Inductive EventType := session_started | session_stopped | server_down | server_up.

#[global] Instance NotificationSeverity_eq_dec : EqDecision NotificationSeverity.
Proof. solve_decision. Defined.

#[global] Instance EventType_eq_dec : EqDecision EventType.
Proof. solve_decision. Defined.

(** A string operand of [!] or [||]: [null] and the empty string are
    falsy; [truthy] keeps the others. *)
Definition truthy (v : option string) : option string :=
  match v with
  | Some EmptyString => None
  | _ => v
  end.

(** [[hour, minute] = s.split(':').map(Number)]: the first two elements,
    [undefined] where the array is shorter. *)
Definition hourMinute (s : string) : option JS.number * option JS.number :=
  let parts := JS.Number <$> JS.split ":"%char s in
  (parts !! 0%nat, parts !! 1%nat).

Section QuietHoursService.

Variable platform : Platform.

(** The local time of the wall clock in the user's time zone, with the
    fall-back to UTC of the [catch] block (its [console.warn] is left
    out).  The second format call is outside any [try]. *)
Definition userTime (prefs : QuietHoursPrefs) : completion string :=
  let now := Date_now platform in
  let timeZone :=
    default "UTC" (truthy (Some (quietHoursTimezone prefs))) in
  match Intl_format platform timeZone now with
  | Some formatted => Normal formatted
  | None =>
      match Intl_format platform "UTC" now with
      | Some formatted => Normal formatted
      | None => Throw RangeError
      end
  end.

Definition isQuietTime (prefs : QuietHoursPrefs) : completion bool :=
  match quietHoursEnabled prefs,
        truthy (quietHoursStart prefs), truthy (quietHoursEnd prefs) with
  | true, Some quietHoursStart, Some quietHoursEnd =>
      match userTime prefs with
      | Throw e => Throw e
      | Normal userTime =>
          let '(currentHour, currentMinute) := hourMinute userTime in
          let '(startHour, startMinute) := hourMinute quietHoursStart in
          let '(endHour, endMinute) := hourMinute quietHoursEnd in
          let currentMinutes :=
            JS.add (JS.mul (JS.ToNumber currentHour) (JS.Fin 60))
                   (JS.ToNumber currentMinute) in
          let startMinutes :=
            JS.add (JS.mul (JS.ToNumber startHour) (JS.Fin 60))
                   (JS.ToNumber startMinute) in
          let endMinutes :=
            JS.add (JS.mul (JS.ToNumber endHour) (JS.Fin 60))
                   (JS.ToNumber endMinute) in
          if JS.gt startMinutes endMinutes then
            Normal (JS.ge currentMinutes startMinutes
                    || JS.le currentMinutes endMinutes)
          else
            Normal (JS.ge currentMinutes startMinutes
                    && JS.le currentMinutes endMinutes)
      end
  | _, _, _ => Normal false
  end.

Definition shouldSend (prefs : QuietHoursPrefs)
    (severity : NotificationSeverity) : completion bool :=
  match isQuietTime prefs with
  | Throw e => Throw e
  | Normal quiet =>
      if negb quiet then Normal true
      else if quietHoursOverrideCritical prefs
              && bool_decide (severity = high)
      then Normal true
      else Normal false
  end.

Definition shouldSendEvent (prefs : QuietHoursPrefs)
    (eventType : EventType) : completion bool :=
  if bool_decide (eventType = server_down) then shouldSend prefs high
  else shouldSend prefs low.

End QuietHoursService.

(** ** Notions of the specification *)

(** The event-to-severity table. *)
Definition eventSeverity (eventType : EventType) : NotificationSeverity :=
  match eventType with
  | server_down => high
  | session_started | session_stopped | server_up => low
  end.

(** The contract [isQuietTime(prefs, now)] and [shouldSend(prefs, severity,
    now)]: the decision at the instant the caller supplies, at the wall
    clock when the caller supplies none. *)
Definition at_instant (platform : Platform) (now : option Z) : Platform :=
  {| Date_now := default (Date_now platform) now;
     Intl_format := Intl_format platform |}.

Definition isQuietTime_contract (platform : Platform)
    (prefs : QuietHoursPrefs) (now : option Z) : completion bool :=
  isQuietTime (at_instant platform now) prefs.

Definition shouldSend_contract (platform : Platform)
    (prefs : QuietHoursPrefs) (severity : NotificationSeverity)
    (now : option Z) : completion bool :=
  shouldSend (at_instant platform now) prefs severity.

(** A time of day written HH:MM. *)
Definition two_digits (n : nat) : string :=
  String (Ascii.ascii_of_nat (48 + n / 10))
    (String (Ascii.ascii_of_nat (48 + n mod 10)) EmptyString).

Definition HHMM (h m : nat) : string := two_digits h +:+ ":" +:+ two_digits m.

(** The strings that are a time of day in this format. *)
Definition wellFormed (s : string) : Prop :=
  ∃ h m : nat, (h < 24)%nat ∧ (m < 60)%nat ∧ s = HHMM h m.

(** Minutes since midnight as the service computes them from a string. *)
Definition minutesOf (s : string) : JS.number :=
  let '(h, m) := hourMinute s in
  JS.add (JS.mul (JS.ToNumber h) (JS.Fin 60)) (JS.ToNumber m).

(** The window on minutes since midnight: across midnight if the start
    is after the end, within the day otherwise; both ends belong to it. *)
Definition inWindow (current start finish : Z) : bool :=
  if finish <? start
  then (start <=? current) || (current <=? finish)
  else (start <=? current) && (current <=? finish).

(** ** Notions used in the statements *)

(** The count and the TTL the script reads for a key. *)
Definition countAt (now : Z) (k : string) (d : Redis.db) : Z :=
  count_of (Redis.GET now k d).1.

Definition ttlAt (now : Z) (k : string) (d : Redis.db) : Z :=
  (Redis.TTL now k d).1.

(** The entry of a key after [INCR]. *)
Definition incremented (now : Z) (k : string) (d : Redis.db) : Redis.db :=
  <[k := Redis.Entry (countAt now k d + 1)
           (Redis.find now k d ≫= Redis.expireAt)]> d.

(** The entry of a key after [INCR] and the [EXPIRE] that follows it when
    the key had no TTL: the count is one higher, and a key without expiry
    gets the window. *)
Definition bumped (now window : Z) (o : option Redis.entry) : Redis.entry :=
  match o with
  | Some e =>
      Redis.Entry (Redis.value e + 1)
        (Some (default (now + window * 1000) (Redis.expireAt e)))
  | None => Redis.Entry 1 (Some (now + window * 1000))
  end.

(** A key that no command sees from [t0] on. *)
Definition fresh_since (t0 : Z) (k : string) (d : Redis.db) : Prop :=
  ∀ t, t0 ≤ t → Redis.find t k d = None.

(** The state of a key during the [w] seconds from [t0], after [c]
    allowed calls: still absent if there was none, else holding [c] with an
    expiry no earlier than the end of these [w] seconds. *)
Definition window_inv (t0 w : Z) (k : string) (c : Z) (d : Redis.db) : Prop :=
  (c = 0 ∧ fresh_since t0 k d) ∨
  (∃ e, d !! k = Some (Redis.Entry c (Some e)) ∧ t0 + w * 1000 ≤ e).

(** ** Sample data *)

(** An instance of the key builders. *)
Definition example_keys : RedisKeys := {|
  PUSH_RATE_MINUTE := λ id, "push:rate:minute:" +:+ id;
  PUSH_RATE_HOUR := λ id, "push:rate:hour:" +:+ id
|}.

Definition example_prefs : RateLimitPrefs :=
  {| maxPerMinute := 5; maxPerHour := 100 |}.

(** The store after five calls of one session in its first five seconds. *)
Definition five_calls : Redis.db :=
  (calls example_keys "phone" example_prefs
     [1000; 2000; 3000; 4000; 5000] ∅).2.

(** A host with the zones of a fixed table, each at a fixed offset from
    UTC in minutes, whose clock reads [now]. *)
Definition example_zones : list (string * Z) :=
  [("UTC", 0); ("Europe/Paris", 60); ("Asia/Kolkata", 330);
   ("America/New_York", -300)].

Definition example_format (timeZone : string) (instant : Z) : option string :=
  offset ← list_to_map (M := gmap string Z) example_zones !! timeZone;
  let minutes := (instant / 60000 + offset) mod 1440 in
  Some (HHMM (Z.to_nat (minutes / 60)) (Z.to_nat (minutes mod 60))).

Definition example_platform (now : Z) : Platform :=
  {| Date_now := now; Intl_format := example_format |}.

(** The instant [h]:[m] UTC of the first day of the epoch. *)
Definition utc (h m : Z) : Z := h * 3600000 + m * 60000.

(** Quiet from 23:00 to 07:00, critical notifications excepted. *)
Definition night_prefs (timeZone : string) : QuietHoursPrefs := {|
  quietHoursEnabled := true;
  quietHoursStart := Some "23:00";
  quietHoursEnd := Some "07:00";
  quietHoursTimezone := timeZone;
  quietHoursOverrideCritical := true
|}.

(** Start and end at the same time of day. *)
Definition evening_prefs : QuietHoursPrefs := {|
  quietHoursEnabled := true;
  quietHoursStart := Some "22:00";
  quietHoursEnd := Some "22:00";
  quietHoursTimezone := "UTC";
  quietHoursOverrideCritical := false
|}.

(** Preferences with a time zone no host knows and a start string to be
    chosen. *)
Definition careless_prefs (start : string) : QuietHoursPrefs := {|
  quietHoursEnabled := true;
  quietHoursStart := Some start;
  quietHoursEnd := Some "07:00";
  quietHoursTimezone := "Mars/Phobos";
  quietHoursOverrideCritical := false
|}.

(** The same preferences in another time zone. *)
Definition with_timezone (timeZone : string) (prefs : QuietHoursPrefs)
    : QuietHoursPrefs := {|
  quietHoursEnabled := quietHoursEnabled prefs;
  quietHoursStart := quietHoursStart prefs;
  quietHoursEnd := quietHoursEnd prefs;
  quietHoursTimezone := timeZone;
  quietHoursOverrideCritical := quietHoursOverrideCritical prefs
|}.

(** Quiet hours between two times of day, UTC. *)
Definition quiet_between (start finish : string) (overrideCritical : bool)
    : QuietHoursPrefs := {|
  quietHoursEnabled := true;
  quietHoursStart := Some start;
  quietHoursEnd := Some finish;
  quietHoursTimezone := "UTC";
  quietHoursOverrideCritical := overrideCritical
|}.

(** A host, half an hour past midnight, that writes the first hour of the
    day as 24. *)
Definition h24_platform : Platform :=
  {| Date_now := utc 0 30; Intl_format := λ _ _, Some "24:30" |}.

(** ** Further notions *)

(** A counter the limiter may have left by instant [T]: absent, or a count
    from 1 to the cap with an expiry at most the window length after [T]. *)
Definition entry_kept (T w cap : Z) (o : option Redis.entry) : Prop :=
  match o with
  | Some e =>
      1 ≤ Redis.value e ≤ cap
      ∧ ∃ t, Redis.expireAt e = Some t ∧ t ≤ T + w * 1000
  | None => True
  end.

Definition kept (REDIS_KEYS : RedisKeys) (sid : string) (prefs : RateLimitPrefs)
    (T : Z) (d : Redis.db) : Prop :=
  entry_kept T 60 (maxPerMinute prefs) (d !! PUSH_RATE_MINUTE REDIS_KEYS sid)
  ∧ entry_kept T 3600 (maxPerHour prefs) (d !! PUSH_RATE_HOUR REDIS_KEYS sid).

(** Key builders that give every session its own two keys. *)
Definition collision_free (REDIS_KEYS : RedisKeys) : Prop :=
  (∀ a b, PUSH_RATE_MINUTE REDIS_KEYS a ≠ PUSH_RATE_HOUR REDIS_KEYS b)
  ∧ (∀ a b, PUSH_RATE_MINUTE REDIS_KEYS a = PUSH_RATE_MINUTE REDIS_KEYS b → a = b)
  ∧ (∀ a b, PUSH_RATE_HOUR REDIS_KEYS a = PUSH_RATE_HOUR REDIS_KEYS b → a = b).

(** The limiter object holds the connection it was built with and nothing
    else. *)
Record PushRateLimiter (Connection : Type) := { redis : Connection }.

Arguments redis {Connection} _.

(** The module-level variable [rateLimiterInstance], threaded through the
    two functions that use it; it starts as [None], for [null]. *)
Definition initPushRateLimiter {Connection : Type} (redis : Connection)
    (rateLimiterInstance : option (PushRateLimiter Connection))
    : PushRateLimiter Connection * option (PushRateLimiter Connection) :=
  let rateLimiterInstance := Some {| redis := redis |} in
  ({| redis := redis |}, rateLimiterInstance).

Definition getPushRateLimiter {Connection : Type}
    (rateLimiterInstance : option (PushRateLimiter Connection))
    : option (PushRateLimiter Connection) * option (PushRateLimiter Connection) :=
  (rateLimiterInstance, rateLimiterInstance).

(** The variable after a run of initialisations. *)
Definition initialised {Connection : Type} (connections : list Connection)
    (rateLimiterInstance : option (PushRateLimiter Connection))
    : option (PushRateLimiter Connection) :=
  foldl (λ instance connection, (initPushRateLimiter connection instance).2)
    rateLimiterInstance connections.

(** The same preferences with other start and end strings, or with the
    override flag set another way. *)
Definition with_times (start finish : option string) (prefs : QuietHoursPrefs)
    : QuietHoursPrefs := {|
  quietHoursEnabled := quietHoursEnabled prefs;
  quietHoursStart := start;
  quietHoursEnd := finish;
  quietHoursTimezone := quietHoursTimezone prefs;
  quietHoursOverrideCritical := quietHoursOverrideCritical prefs
|}.

Definition with_override (overrideCritical : bool) (prefs : QuietHoursPrefs)
    : QuietHoursPrefs := {|
  quietHoursEnabled := quietHoursEnabled prefs;
  quietHoursStart := quietHoursStart prefs;
  quietHoursEnd := quietHoursEnd prefs;
  quietHoursTimezone := quietHoursTimezone prefs;
  quietHoursOverrideCritical := overrideCritical
|}.

(** The bytes of the decimal digits, and the number a run of them denotes,
    continued from [acc]. *)
Definition decimal_digit (c : Z) : Prop := 48 ≤ c ≤ 57.

Definition decimal_value (acc : Z) (l : list Z) : Z :=
  foldl (λ a c, a * 10 + (c - 48)) acc l.

(** A time of day written with as many digits as its numbers need, as
    [7:5] for five past seven. *)
Definition unpadded (h m : nat) : string := pretty h +:+ ":" +:+ pretty m.

(** ** Further sample data *)

Definition closed_prefs : RateLimitPrefs :=
  {| maxPerMinute := 0; maxPerHour := 100 |}.

Definition burst_prefs : RateLimitPrefs :=
  {| maxPerMinute := 2; maxPerHour := 3 |}.

(** Quiet hours switched on, with an empty start. *)
Definition off_prefs : QuietHoursPrefs := {|
  quietHoursEnabled := true;
  quietHoursStart := Some "";
  quietHoursEnd := Some "07:00";
  quietHoursTimezone := "Mars/Phobos";
  quietHoursOverrideCritical := false
|}.

(** A host that knows no time zone at all. *)
Definition bare_platform : Platform :=
  {| Date_now := utc 23 30; Intl_format := λ _ _, None |}.

(** * Properties *)

(** ** The store and the script *)

Lemma find_insert_eq now k e d :
  Redis.find now k (<[k := e]> d) = if Redis.expired now e then None else Some e.
Proof. unfold Redis.find. by rewrite lookup_insert_eq. Qed.

Lemma find_insert_ne now k k' e d :
  k ≠ k' → Redis.find now k' (<[k := e]> d) = Redis.find now k' d.
Proof. intros Hne. unfold Redis.find. by rewrite lookup_insert_ne. Qed.

Lemma find_live now k d e :
  Redis.find now k d = Some e → Redis.expired now e = false.
Proof.
  unfold Redis.find. destruct (d !! k) as [e'|]; [|done].
  destruct (Redis.expired now e') eqn:E; [done|]. by intros [= <-].
Qed.

(** The TTL of a key is negative exactly when the key is absent or has
    no expiry: a live key with an expiry has a TTL of 0 or more. *)
Lemma ttl_neg now k d :
  ttlAt now k d < 0 ↔
  match Redis.find now k d with
  | Some e => Redis.expireAt e = None
  | None => True
  end.
Proof.
  unfold ttlAt, Redis.TTL; simpl.
  destruct (Redis.find now k d) as [e|] eqn:Hf; [|split; [done|lia]].
  pose proof (find_live _ _ _ _ Hf) as Hl. unfold Redis.expired in Hl.
  destruct (Redis.expireAt e) as [t|]; [|split; [done|lia]].
  apply Z.ltb_ge in Hl. split; [|done].
  intros H. exfalso. assert (0 <= (t - now + 500) / 1000); [|lia].
  apply Z.div_pos; lia.
Qed.

(** [INCR], and the [EXPIRE] that follows it when the TTL read before
    was negative. *)
Lemma incr_then_expire now k w d :
  0 < w →
  Redis.INCR now k d = (countAt now k d + 1, incremented now k d)
  ∧ ((ttlAt now k d <? 0) = true →
     Redis.EXPIRE now k w (incremented now k d)
     = (1, <[k := bumped now w (Redis.find now k d)]> d))
  ∧ ((ttlAt now k d <? 0) = false →
     incremented now k d = <[k := bumped now w (Redis.find now k d)]> d).
Proof.
  intros Hw. pose proof (ttl_neg now k d) as Hneg.
  rewrite Z.ltb_lt, Z.ltb_ge, Z.le_ngt.
  unfold incremented, countAt, Redis.GET, Redis.INCR, Redis.EXPIRE, bumped in *.
  simpl in *.
  destruct (Redis.find now k d) as [[v ex]|] eqn:Hf; simpl in *.
  - split; [done|]. split.
    + intros Hlt. apply Hneg in Hlt. subst ex.
      rewrite find_insert_eq. simpl.
      destruct (w <=? 0) eqn:E; [lia|]. by rewrite insert_insert_eq.
    + intros Hge. destruct ex as [t|]; [done|]. tauto.
  - split; [done|]. split; [|tauto].
    intros _. rewrite find_insert_eq. simpl.
    destruct (w <=? 0) eqn:E; [lia|]. by rewrite insert_insert_eq.
Qed.

(** Unfold the script up to its two tests, keeping the four reads as
    [countAt] and [ttlAt]. *)
Ltac fold_reads now mk hk d :=
  change (count_of (Redis.value <$> Redis.find now mk d)) with (countAt now mk d);
  change (count_of (Redis.value <$> Redis.find now hk d)) with (countAt now hk d);
  change (match Redis.find now mk d with
          | Some e => match Redis.expireAt e with
                      | Some t => (t - now + 500) / 1000 | None => -1 end
          | None => -2 end) with (ttlAt now mk d);
  change (match Redis.find now hk d with
          | Some e => match Redis.expireAt e with
                      | Some t => (t - now + 500) / 1000 | None => -1 end
          | None => -2 end) with (ttlAt now hk d).

Ltac open_script now mk hk d :=
  unfold RATE_LIMIT_SCRIPT, mbind, mret, Redis.bind, Redis.ret;
  unfold Redis.GET at 1 2; unfold Redis.TTL at 1 2; cbv beta iota zeta;
  fold_reads now mk hk d; rewrite !Z.geb_leb.

(** The allowed path, for distinct keys: both counts go up by one and a
    key that had no TTL gets its window. *)
Lemma script_allow now mk hk mm mh d :
  mk ≠ hk → countAt now mk d < mm → countAt now hk d < mh →
  RATE_LIMIT_SCRIPT now mk hk mm mh d =
    ((1, countAt now mk d + 1, countAt now hk d + 1,
      (if ttlAt now mk d <? 0 then 60 else ttlAt now mk d),
      (if ttlAt now hk d <? 0 then 3600 else ttlAt now hk d), 0),
     <[hk := bumped now 3600 (Redis.find now hk d)]>
       (<[mk := bumped now 60 (Redis.find now mk d)]> d)).
Proof.
  intros Hne Hm Hh.
  destruct (incr_then_expire now mk 60 d) as (Hi & He & Hn); [lia|].
  set (d1 := <[mk := bumped now 60 (Redis.find now mk d)]> d) in *.
  assert (Hfh : Redis.find now hk d1 = Redis.find now hk d)
    by (by apply find_insert_ne).
  assert (Hch : countAt now hk d1 = countAt now hk d)
    by (unfold countAt, Redis.GET; simpl; by rewrite Hfh).
  assert (Hth : ttlAt now hk d1 = ttlAt now hk d)
    by (unfold ttlAt, Redis.TTL; simpl; by rewrite Hfh).
  destruct (incr_then_expire now hk 3600 d1) as (Hi' & He' & Hn'); [lia|].
  rewrite Hfh, Hch, Hth in *.
  open_script now mk hk d.
  destruct (mm <=? countAt now mk d) eqn:E1; [lia|].
  destruct (mh <=? countAt now hk d) eqn:E2; [lia|].
  rewrite Hi.
  destruct (ttlAt now mk d <? 0) eqn:T1;
    [rewrite (He eq_refl) | rewrite (Hn eq_refl)];
    fold d1; rewrite Hi';
    (destruct (ttlAt now hk d <? 0) eqn:T2;
       [by rewrite (He' eq_refl) | by rewrite (Hn' eq_refl)]).
Qed.

(** The two denials: the reply reports what was read, and the store is
    the one the script found. *)
Lemma script_deny_minute now mk hk mm mh d :
  mm ≤ countAt now mk d →
  RATE_LIMIT_SCRIPT now mk hk mm mh d =
    ((0, countAt now mk d, countAt now hk d,
      ttlAt now mk d, ttlAt now hk d, 1), d).
Proof.
  intros Hm. open_script now mk hk d.
  by destruct (mm <=? countAt now mk d) eqn:E; [|lia].
Qed.

Lemma script_deny_hour now mk hk mm mh d :
  countAt now mk d < mm → mh ≤ countAt now hk d →
  RATE_LIMIT_SCRIPT now mk hk mm mh d =
    ((0, countAt now mk d, countAt now hk d,
      ttlAt now mk d, ttlAt now hk d, 2), d).
Proof.
  intros Hm Hh. open_script now mk hk d.
  destruct (mm <=? countAt now mk d) eqn:E1; [lia|].
  by destruct (mh <=? countAt now hk d) eqn:E2; [|lia].
Qed.

(** The allowed path for any two keys: the flags and the TTLs of the
    reply. *)
Lemma script_allow_reply now mk hk mm mh d :
  countAt now mk d < mm → countAt now hk d < mh →
  ∃ newMinuteCount newHourCount d',
    RATE_LIMIT_SCRIPT now mk hk mm mh d =
      ((1, newMinuteCount, newHourCount,
        (if ttlAt now mk d <? 0 then 60 else ttlAt now mk d),
        (if ttlAt now hk d <? 0 then 3600 else ttlAt now hk d), 0), d').
Proof.
  intros Hm Hh. open_script now mk hk d.
  destruct (mm <=? countAt now mk d) eqn:E1; [lia|].
  destruct (mh <=? countAt now hk d) eqn:E2; [lia|].
  destruct (Redis.INCR now mk d) as [nm d1].
  destruct (ttlAt now mk d <? 0).
  - destruct (Redis.EXPIRE now mk 60 d1) as [? d2].
    destruct (Redis.INCR now hk d2) as [nh d3].
    destruct (ttlAt now hk d <? 0); [|by eauto].
    destruct (Redis.EXPIRE now hk 3600 d3) as [? d4]. by eauto.
  - destruct (Redis.INCR now hk d1) as [nh d3].
    destruct (ttlAt now hk d <? 0); [|by eauto].
    destruct (Redis.EXPIRE now hk 3600 d3) as [? d4]. by eauto.
Qed.

Section CheckAndRecordCases.

Variable REDIS_KEYS : RedisKeys.
Variables (now : Z) (sid : string) (prefs : RateLimitPrefs) (d : Redis.db).

Let mk := PUSH_RATE_MINUTE REDIS_KEYS sid.
Let hk := PUSH_RATE_HOUR REDIS_KEYS sid.

Lemma checkAndRecord_minute_exceeded :
  maxPerMinute prefs ≤ countAt now mk d →
  checkAndRecord REDIS_KEYS now sid prefs d =
    ({| allowed := false;
        remainingMinute := 0;
        remainingHour := Z.max 0 (maxPerHour prefs - countAt now hk d);
        resetMinuteIn := if ttlAt now mk d >? 0 then ttlAt now mk d else 60;
        resetHourIn := if ttlAt now hk d >? 0 then ttlAt now hk d else 3600;
        exceededLimit := Some minute |}, d).
Proof.
  intros Hm. unfold checkAndRecord, mbind, Redis.bind.
  fold mk hk. by rewrite script_deny_minute.
Qed.

Lemma checkAndRecord_hour_exceeded :
  countAt now mk d < maxPerMinute prefs →
  maxPerHour prefs ≤ countAt now hk d →
  checkAndRecord REDIS_KEYS now sid prefs d =
    ({| allowed := false;
        remainingMinute := Z.max 0 (maxPerMinute prefs - countAt now mk d);
        remainingHour := 0;
        resetMinuteIn := if ttlAt now mk d >? 0 then ttlAt now mk d else 60;
        resetHourIn := if ttlAt now hk d >? 0 then ttlAt now hk d else 3600;
        exceededLimit := Some hour |}, d).
Proof.
  intros Hm Hh. unfold checkAndRecord, mbind, Redis.bind.
  fold mk hk. by rewrite script_deny_hour.
Qed.

Lemma checkAndRecord_under_caps :
  countAt now mk d < maxPerMinute prefs →
  countAt now hk d < maxPerHour prefs →
  ∃ newMinuteCount newHourCount d',
    checkAndRecord REDIS_KEYS now sid prefs d =
      ({| allowed := true;
          remainingMinute := Z.max 0 (maxPerMinute prefs - newMinuteCount);
          remainingHour := Z.max 0 (maxPerHour prefs - newHourCount);
          resetMinuteIn := if ttlAt now mk d <? 0 then 60
                           else if ttlAt now mk d >? 0 then ttlAt now mk d
                           else 60;
          resetHourIn := if ttlAt now hk d <? 0 then 3600
                         else if ttlAt now hk d >? 0 then ttlAt now hk d
                         else 3600;
          exceededLimit := None |}, d').
Proof.
  intros Hm Hh.
  destruct (script_allow_reply now mk hk _ _ d Hm Hh) as (nm & nh & d' & Hs).
  exists nm, nh, d'. unfold checkAndRecord, mbind, Redis.bind.
  fold mk hk. rewrite Hs. simpl.
  by destruct (ttlAt now mk d <? 0), (ttlAt now hk d <? 0).
Qed.

Lemma checkAndRecord_recorded :
  mk ≠ hk →
  countAt now mk d < maxPerMinute prefs →
  countAt now hk d < maxPerHour prefs →
  checkAndRecord REDIS_KEYS now sid prefs d =
    ({| allowed := true;
        remainingMinute :=
          Z.max 0 (maxPerMinute prefs - (countAt now mk d + 1));
        remainingHour :=
          Z.max 0 (maxPerHour prefs - (countAt now hk d + 1));
        resetMinuteIn := if ttlAt now mk d <? 0 then 60
                         else if ttlAt now mk d >? 0 then ttlAt now mk d
                         else 60;
        resetHourIn := if ttlAt now hk d <? 0 then 3600
                       else if ttlAt now hk d >? 0 then ttlAt now hk d
                       else 3600;
        exceededLimit := None |},
     <[hk := bumped now 3600 (Redis.find now hk d)]>
       (<[mk := bumped now 60 (Redis.find now mk d)]> d)).
Proof.
  intros Hne Hm Hh. unfold checkAndRecord, mbind, Redis.bind.
  fold mk hk. rewrite script_allow by done. simpl.
  by destruct (ttlAt now mk d <? 0), (ttlAt now hk d <? 0).
Qed.

(** The three ways a call can go, by the counts it reads. *)
Lemma checkAndRecord_allowed_iff :
  allowed (checkAndRecord REDIS_KEYS now sid prefs d).1 = true ↔
  countAt now mk d < maxPerMinute prefs ∧ countAt now hk d < maxPerHour prefs.
Proof.
  destruct (Z.le_gt_cases (maxPerMinute prefs) (countAt now mk d)) as [Hm|Hm].
  { rewrite checkAndRecord_minute_exceeded by done. simpl. split; [done|lia]. }
  destruct (Z.le_gt_cases (maxPerHour prefs) (countAt now hk d)) as [Hh|Hh].
  { rewrite checkAndRecord_hour_exceeded by done. simpl. split; [done|lia]. }
  destruct (checkAndRecord_under_caps Hm Hh) as (? & ? & ? & ->). done.
Qed.

End CheckAndRecordCases.

(** ** Windows *)

Lemma absent_fresh_since t0 k d :
  Redis.find t0 k d = None → fresh_since t0 k d.
Proof.
  unfold fresh_since, Redis.find, Redis.expired. intros H t Ht.
  destruct (d !! k) as [[v [e|]]|]; simpl in *; try done.
  destruct (e <? t0) eqn:E; [|done].
  destruct (e <? t) eqn:E'; [done|lia].
Qed.

Section Window.

Variables (t0 w : Z) (k : string).

Lemma window_find c d t :
  window_inv t0 w k c d → t0 ≤ t ≤ t0 + w * 1000 →
  (c = 0 ∧ Redis.find t k d = None) ∨
  (∃ e, Redis.find t k d = Some (Redis.Entry c (Some e))
        ∧ t0 + w * 1000 ≤ e).
Proof.
  intros [[-> Hf]|(e & Hl & He)] Ht.
  - left. split; [done|]. apply Hf. lia.
  - right. exists e. split; [|done].
    unfold Redis.find, Redis.expired. rewrite Hl. simpl.
    by destruct (e <? t) eqn:E; [lia|].
Qed.

Lemma window_count c d t :
  window_inv t0 w k c d → t0 ≤ t ≤ t0 + w * 1000 → countAt t k d = c.
Proof.
  intros Hi Ht. unfold countAt, Redis.GET. simpl.
  by destruct (window_find c d t Hi Ht) as [[-> ->]|(e & -> & _)].
Qed.

Lemma window_bumped c d d0 t :
  window_inv t0 w k c d → t0 ≤ t ≤ t0 + w * 1000 →
  window_inv t0 w k (c + 1) (<[k := bumped t w (Redis.find t k d)]> d0).
Proof.
  intros Hi Ht. right.
  destruct (window_find c d t Hi Ht) as [[-> ->]|(e & -> & He)]; simpl.
  - exists (t + w * 1000). rewrite lookup_insert_eq. split; [done|lia].
  - exists e. by rewrite lookup_insert_eq.
Qed.

Lemma window_other c d k' x :
  k' ≠ k → window_inv t0 w k c d → window_inv t0 w k c (<[k' := x]> d).
Proof.
  intros Hne [[-> Hf]|(e & Hl & He)].
  - left. split; [done|]. intros t Ht. rewrite find_insert_ne by done.
    by apply Hf.
  - right. exists e. by rewrite lookup_insert_ne.
Qed.

End Window.

Section Calls.

Variable REDIS_KEYS : RedisKeys.
Hypothesis keys_distinct :
  ∀ sid, PUSH_RATE_MINUTE REDIS_KEYS sid ≠ PUSH_RATE_HOUR REDIS_KEYS sid.

Variables (sid : string) (prefs : RateLimitPrefs) (t0 : Z).

Let mk := PUSH_RATE_MINUTE REDIS_KEYS sid.
Let hk := PUSH_RATE_HOUR REDIS_KEYS sid.

(** One call inside the minute window: an allowed call finds the count
    below the cap and leaves it one higher; a denied call leaves it. *)
Lemma minute_window_step c d t :
  window_inv t0 60 mk c d → t0 ≤ t ≤ t0 + 60 * 1000 →
  let '(r, d') := checkAndRecord REDIS_KEYS t sid prefs d in
  if allowed r
  then c < maxPerMinute prefs ∧ window_inv t0 60 mk (c + 1) d'
  else window_inv t0 60 mk c d'.
Proof.
  intros Hi Ht.
  pose proof (checkAndRecord_allowed_iff REDIS_KEYS t sid prefs d) as Hiff.
  destruct (checkAndRecord REDIS_KEYS t sid prefs d) as [r d'] eqn:Hcall.
  simpl in Hiff. destruct (allowed r) eqn:Ha.
  - destruct Hiff as [[Hm Hh] _]; [done|].
    rewrite checkAndRecord_recorded in Hcall by auto.
    injection Hcall as _ <-. fold mk hk in Hm, Hh |- *.
    rewrite (window_count _ _ _ _ _ _ Hi Ht) in Hm. split; [done|].
    apply window_other; [by apply not_eq_sym, keys_distinct|].
    by apply window_bumped.
  - destruct (Z.le_gt_cases (maxPerMinute prefs) (countAt t mk d)) as [Hm|Hm].
    { rewrite checkAndRecord_minute_exceeded in Hcall by done.
      by injection Hcall as _ <-. }
    destruct (Z.le_gt_cases (maxPerHour prefs) (countAt t hk d)) as [Hh|Hh].
    { rewrite checkAndRecord_hour_exceeded in Hcall by done.
      by injection Hcall as _ <-. }
    destruct Hiff as [_ Hiff]. by discriminate Hiff.
Qed.

Lemma hour_window_step c d t :
  window_inv t0 3600 hk c d → t0 ≤ t ≤ t0 + 3600 * 1000 →
  let '(r, d') := checkAndRecord REDIS_KEYS t sid prefs d in
  if allowed r
  then c < maxPerHour prefs ∧ window_inv t0 3600 hk (c + 1) d'
  else window_inv t0 3600 hk c d'.
Proof.
  intros Hi Ht.
  pose proof (checkAndRecord_allowed_iff REDIS_KEYS t sid prefs d) as Hiff.
  destruct (checkAndRecord REDIS_KEYS t sid prefs d) as [r d'] eqn:Hcall.
  simpl in Hiff. destruct (allowed r) eqn:Ha.
  - destruct Hiff as [[Hm Hh] _]; [done|].
    rewrite checkAndRecord_recorded in Hcall by auto.
    injection Hcall as _ <-. fold mk hk in Hm, Hh |- *.
    rewrite (window_count _ _ _ _ _ _ Hi Ht) in Hh. split; [done|].
    by apply window_bumped.
  - destruct (Z.le_gt_cases (maxPerMinute prefs) (countAt t mk d)) as [Hm|Hm].
    { rewrite checkAndRecord_minute_exceeded in Hcall by done.
      by injection Hcall as _ <-. }
    destruct (Z.le_gt_cases (maxPerHour prefs) (countAt t hk d)) as [Hh|Hh].
    { rewrite checkAndRecord_hour_exceeded in Hcall by done.
      by injection Hcall as _ <-. }
    destruct Hiff as [_ Hiff]. by discriminate Hiff.
Qed.

Lemma allowedCount_cons r rs :
  allowedCount (r :: rs) = (if allowed r then 1 else 0) + allowedCount rs.
Proof.
  unfold allowedCount. rewrite filter_cons.
  destruct (allowed r); simpl; [|done]. lia.
Qed.

Lemma calls_cons t ts d :
  calls REDIS_KEYS sid prefs (t :: ts) d =
    let '(r, d1) := checkAndRecord REDIS_KEYS t sid prefs d in
    let '(rs, d2) := calls REDIS_KEYS sid prefs ts d1 in
    (r :: rs, d2).
Proof. done. Qed.

Lemma calls_minute_window ts : ∀ c d,
  window_inv t0 60 mk c d → c ≤ maxPerMinute prefs →
  Forall (λ t, t0 ≤ t ≤ t0 + 60 * 1000) ts →
  c + allowedCount (calls REDIS_KEYS sid prefs ts d).1 ≤ maxPerMinute prefs.
Proof.
  induction ts as [|t ts IH]; intros c d Hi Hc Hts.
  { simpl. unfold allowedCount. simpl. lia. }
  apply Forall_cons in Hts as [Ht Hts]. rewrite calls_cons.
  pose proof (minute_window_step c d t Hi Ht) as Hstep.
  destruct (checkAndRecord REDIS_KEYS t sid prefs d) as [r d1].
  specialize (IH (c + if allowed r then 1 else 0) d1).
  destruct (calls REDIS_KEYS sid prefs ts d1) as [rs d2]. simpl in *.
  rewrite allowedCount_cons.
  destruct (allowed r).
  - destruct Hstep as [Hlt Hi']. specialize (IH Hi' ltac:(lia) Hts). lia.
  - rewrite Z.add_0_r in IH. specialize (IH Hstep Hc Hts). lia.
Qed.

Lemma calls_hour_window ts : ∀ c d,
  window_inv t0 3600 hk c d → c ≤ maxPerHour prefs →
  Forall (λ t, t0 ≤ t ≤ t0 + 3600 * 1000) ts →
  c + allowedCount (calls REDIS_KEYS sid prefs ts d).1 ≤ maxPerHour prefs.
Proof.
  induction ts as [|t ts IH]; intros c d Hi Hc Hts.
  { simpl. unfold allowedCount. simpl. lia. }
  apply Forall_cons in Hts as [Ht Hts]. rewrite calls_cons.
  pose proof (hour_window_step c d t Hi Ht) as Hstep.
  destruct (checkAndRecord REDIS_KEYS t sid prefs d) as [r d1].
  specialize (IH (c + if allowed r then 1 else 0) d1).
  destruct (calls REDIS_KEYS sid prefs ts d1) as [rs d2]. simpl in *.
  rewrite allowedCount_cons.
  destruct (allowed r).
  - destruct Hstep as [Hlt Hi']. specialize (IH Hi' ltac:(lia) Hts). lia.
  - rewrite Z.add_0_r in IH. specialize (IH Hstep Hc Hts). lia.
Qed.

End Calls.

Lemma getStatus_reads REDIS_KEYS now sid prefs d :
  let mk := PUSH_RATE_MINUTE REDIS_KEYS sid in
  let hk := PUSH_RATE_HOUR REDIS_KEYS sid in
  getStatus REDIS_KEYS now sid prefs d =
    ({| statusRemainingMinute := Z.max 0 (maxPerMinute prefs - countAt now mk d);
        statusRemainingHour := Z.max 0 (maxPerHour prefs - countAt now hk d);
        statusResetMinuteIn := if ttlAt now mk d >? 0 then ttlAt now mk d else 60;
        statusResetHourIn := if ttlAt now hk d >? 0 then ttlAt now hk d else 3600
     |}, d).
Proof. done. Qed.

Lemma countAt_insert_ne now k k' x d :
  k' ≠ k → countAt now k (<[k' := x]> d) = countAt now k d.
Proof.
  intros Hne. unfold countAt, Redis.GET. simpl. by rewrite find_insert_ne.
Qed.

Lemma countAt_bumped now w k d d0 :
  0 ≤ w →
  countAt now k (<[k := bumped now w (Redis.find now k d)]> d0)
  = countAt now k d + 1.
Proof.
  intros Hw. unfold countAt, Redis.GET. simpl. rewrite find_insert_eq.
  destruct (Redis.find now k d) as [[v ex]|] eqn:Hf; simpl.
  - apply find_live in Hf. unfold Redis.expired in *. simpl in *.
    destruct ex as [t|]; simpl; [by rewrite Hf|].
    by destruct (now + w * 1000 <? now) eqn:E; [lia|].
  - unfold Redis.expired. simpl.
    by destruct (now + w * 1000 <? now) eqn:E; [lia|].
Qed.

Lemma absent_ttl now k d : Redis.find now k d = None → ttlAt now k d = -2.
Proof. intros H. unfold ttlAt, Redis.TTL. simpl. by rewrite H. Qed.

(** [reset] returns both keys to absent, at every later instant. *)
Lemma reset_clears REDIS_KEYS now sid d t :
  let d' := (reset REDIS_KEYS now sid d).2 in
  Redis.find t (PUSH_RATE_MINUTE REDIS_KEYS sid) d' = None
  ∧ Redis.find t (PUSH_RATE_HOUR REDIS_KEYS sid) d' = None.
Proof.
  unfold reset, mbind, mret, Redis.bind, Redis.ret, Redis.DEL, Redis.find.
  simpl. rewrite lookup_delete_eq.
  destruct (decide (PUSH_RATE_HOUR REDIS_KEYS sid
                    = PUSH_RATE_MINUTE REDIS_KEYS sid)) as [->|Hne].
  - by rewrite lookup_delete_eq.
  - by rewrite lookup_delete_ne, lookup_delete_eq.
Qed.

Lemma example_keys_distinct sid :
  PUSH_RATE_MINUTE example_keys sid ≠ PUSH_RATE_HOUR example_keys sid.
Proof. simpl. intros H. discriminate H. Qed.

Section RateLimiterClaims.

Variable REDIS_KEYS : RedisKeys.
Hypothesis keys_distinct :
  ∀ sid, PUSH_RATE_MINUTE REDIS_KEYS sid ≠ PUSH_RATE_HOUR REDIS_KEYS sid.

Variables (sid : string) (prefs : RateLimitPrefs).

Let mk := PUSH_RATE_MINUTE REDIS_KEYS sid.
Let hk := PUSH_RATE_HOUR REDIS_KEYS sid.

(** C1.  Take a session whose minute key is absent at [t0], so that the
    first allowed call opens a fresh minute window, and any sequence of
    calls at instants within the 60 seconds from [t0]: at most
    [maxPerMinute] of them are allowed.  Likewise with the hour key and
    3600 seconds: at most [maxPerHour].  A call changes the store only
    if it read both counts strictly below their caps.  The caps are
    non-negative, as the preferences require. *)
Theorem allowed_calls_within_caps (t0 : Z) (times : list Z) (d : Redis.db) :
  0 ≤ maxPerMinute prefs → 0 ≤ maxPerHour prefs →
  (Redis.find t0 mk d = None →
   Forall (λ t, t0 ≤ t ≤ t0 + 60 * 1000) times →
   allowedCount (calls REDIS_KEYS sid prefs times d).1 ≤ maxPerMinute prefs)
  ∧ (Redis.find t0 hk d = None →
     Forall (λ t, t0 ≤ t ≤ t0 + 3600 * 1000) times →
     allowedCount (calls REDIS_KEYS sid prefs times d).1 ≤ maxPerHour prefs)
  ∧ (∀ now, (checkAndRecord REDIS_KEYS now sid prefs d).2 ≠ d →
       countAt now mk d < maxPerMinute prefs
       ∧ countAt now hk d < maxPerHour prefs).
Proof.
  intros Hm Hh. split; [|split].
  - intros Habs Hts.
    pose proof (calls_minute_window REDIS_KEYS keys_distinct sid prefs t0
                  times 0 d) as H.
    rewrite Z.add_0_l in H. apply H; [|done..].
    left. split; [done|]. by apply absent_fresh_since.
  - intros Habs Hts.
    pose proof (calls_hour_window REDIS_KEYS keys_distinct sid prefs t0
                  times 0 d) as H.
    rewrite Z.add_0_l in H. apply H; [|done..].
    left. split; [done|]. by apply absent_fresh_since.
  - intros now Hch.
    destruct (Z.le_gt_cases (maxPerMinute prefs) (countAt now mk d)) as [Hm'|Hm'].
    { by rewrite checkAndRecord_minute_exceeded in Hch. }
    destruct (Z.le_gt_cases (maxPerHour prefs) (countAt now hk d)) as [Hh'|Hh'].
    { by rewrite checkAndRecord_hour_exceeded in Hch. }
    done.
Qed.

(** C2.  A call that returns [allowed = false] leaves the store as it
    was: the minute count, the hour count and both TTLs read the same
    after the call as before it. *)
Theorem denied_call_leaves_store (now : Z) (d : Redis.db) :
  allowed (checkAndRecord REDIS_KEYS now sid prefs d).1 = false →
  let d' := (checkAndRecord REDIS_KEYS now sid prefs d).2 in
  d' = d
  ∧ (Redis.GET now mk d').1 = (Redis.GET now mk d).1
  ∧ (Redis.GET now hk d').1 = (Redis.GET now hk d).1
  ∧ (Redis.TTL now mk d').1 = (Redis.TTL now mk d).1
  ∧ (Redis.TTL now hk d').1 = (Redis.TTL now hk d).1.
Proof.
  intros Hden d'.
  assert (d' = d) as ->; [|done]. subst d'.
  destruct (Z.le_gt_cases (maxPerMinute prefs) (countAt now mk d)) as [Hm|Hm].
  { by rewrite checkAndRecord_minute_exceeded. }
  destruct (Z.le_gt_cases (maxPerHour prefs) (countAt now hk d)) as [Hh|Hh].
  { by rewrite checkAndRecord_hour_exceeded. }
  apply not_true_iff_false in Hden. destruct Hden.
  by apply checkAndRecord_allowed_iff.
Qed.

(** C3.  The minute cap is tested before the hour cap: a call that
    finds both counts at or over their caps is denied with
    [exceededLimit = minute].  Every denial names one dimension, reports
    0 remaining for it, and reports [max 0 (cap - count)] for the other
    one. *)
Theorem minute_cap_checked_first (now : Z) (d : Redis.db) :
  let r := (checkAndRecord REDIS_KEYS now sid prefs d).1 in
  let minuteCount := countAt now mk d in
  let hourCount := countAt now hk d in
  (maxPerMinute prefs ≤ minuteCount → maxPerHour prefs ≤ hourCount →
   allowed r = false ∧ exceededLimit r = Some minute)
  ∧ (allowed r = false →
     (exceededLimit r = Some minute
      ∧ maxPerMinute prefs ≤ minuteCount
      ∧ remainingMinute r = 0
      ∧ remainingHour r = Z.max 0 (maxPerHour prefs - hourCount))
     ∨ (exceededLimit r = Some hour
        ∧ minuteCount < maxPerMinute prefs
        ∧ maxPerHour prefs ≤ hourCount
        ∧ remainingHour r = 0
        ∧ remainingMinute r = Z.max 0 (maxPerMinute prefs - minuteCount))).
Proof.
  intros r minuteCount hourCount. subst r minuteCount hourCount. split.
  - intros Hm Hh. by rewrite checkAndRecord_minute_exceeded.
  - intros Hden.
    destruct (Z.le_gt_cases (maxPerMinute prefs) (countAt now mk d)) as [Hm|Hm].
    { left. by rewrite checkAndRecord_minute_exceeded. }
    destruct (Z.le_gt_cases (maxPerHour prefs) (countAt now hk d)) as [Hh|Hh].
    { right. by rewrite checkAndRecord_hour_exceeded. }
    apply not_true_iff_false in Hden. destruct Hden.
    by apply checkAndRecord_allowed_iff.
Qed.


Lemma nonpositive_ttl_full_window (now : Z) (d : Redis.db) :
  (ttlAt now mk d ≤ 0 →
   resetMinuteIn (checkAndRecord REDIS_KEYS now sid prefs d).1 = 60
   ∧ statusResetMinuteIn (getStatus REDIS_KEYS now sid prefs d).1 = 60)
  ∧ (ttlAt now hk d ≤ 0 →
     resetHourIn (checkAndRecord REDIS_KEYS now sid prefs d).1 = 3600
     ∧ statusResetHourIn (getStatus REDIS_KEYS now sid prefs d).1 = 3600).
Proof.
  rewrite getStatus_reads. fold mk hk. simpl.
  assert (∀ ttl w, ttl ≤ 0 → (if ttl >? 0 then ttl else w) = w) as Hreset.
  { intros ttl w Hle. rewrite Z.gtb_ltb. by destruct (0 <? ttl) eqn:E; [lia|]. }
  destruct (Z.le_gt_cases (maxPerMinute prefs) (countAt now mk d)) as [Hm|Hm].
  { rewrite checkAndRecord_minute_exceeded by done. simpl.
    split; intros Hle; by rewrite !Hreset by done. }
  destruct (Z.le_gt_cases (maxPerHour prefs) (countAt now hk d)) as [Hh|Hh].
  { rewrite checkAndRecord_hour_exceeded by done. simpl.
    split; intros Hle; by rewrite !Hreset by done. }
  destruct (checkAndRecord_under_caps REDIS_KEYS now sid prefs d Hm Hh)
    as (nm & nh & d' & ->). fold mk hk. simpl.
  split; intros Hle; rewrite !Hreset by done;
    by match goal with |- context [?t <? 0] => destruct (t <? 0) end.
Qed.

(** C9.  If a counter key is absent, so that no window is active and the
    store reports a negative TTL for it, both [checkAndRecord] and
    [getStatus] report the full window as the time to reset: 60 for the
    minute key and 3600 for the hour key. *)
Theorem absent_key_full_window (now : Z) (d : Redis.db) :
  (Redis.find now mk d = None →
   ttlAt now mk d = -2
   ∧ resetMinuteIn (checkAndRecord REDIS_KEYS now sid prefs d).1 = 60
   ∧ statusResetMinuteIn (getStatus REDIS_KEYS now sid prefs d).1 = 60)
  ∧ (Redis.find now hk d = None →
     ttlAt now hk d = -2
     ∧ resetHourIn (checkAndRecord REDIS_KEYS now sid prefs d).1 = 3600
     ∧ statusResetHourIn (getStatus REDIS_KEYS now sid prefs d).1 = 3600).
Proof.
  destruct (nonpositive_ttl_full_window now d) as [Hminute Hhour].
  split; intros Habs; apply absent_ttl in Habs; (split; [done|]).
  - apply Hminute. fold mk in Habs. lia.
  - apply Hhour. fold hk in Habs. lia.
Qed.

End RateLimiterClaims.

(** ** The rate limiter on sample data *)

Lemma allowed_calls_within_caps_witness :
  allowedCount
    (calls example_keys "phone" example_prefs
       [1000; 2000; 3000; 4000; 5000; 6000; 7000] ∅).1 ≤ 5
  ∧ allowedCount
      (calls example_keys "phone" example_prefs
         [1000; 2000; 3000; 4000; 5000; 6000; 7000] ∅).1 ≤ 100.
Proof.
  destruct (allowed_calls_within_caps example_keys example_keys_distinct
              "phone" example_prefs 1000
              [1000; 2000; 3000; 4000; 5000; 6000; 7000] ∅)
    as (Hminute & Hhour & _); [simpl; lia | simpl; lia |].
  split.
  - apply Hminute; [reflexivity|]. repeat constructor; lia.
  - apply Hhour; [reflexivity|]. repeat constructor; lia.
Defined.

Lemma denied_call_leaves_store_witness :
  (checkAndRecord example_keys 6000 "phone" example_prefs five_calls).2
  = five_calls.
Proof.
  apply (denied_call_leaves_store example_keys "phone" example_prefs 6000
           five_calls).
  vm_compute. reflexivity.
Defined.

Lemma minute_cap_checked_first_witness :
  let strict := {| maxPerMinute := 5; maxPerHour := 5 |} in
  let r := (checkAndRecord example_keys 6000 "phone" strict five_calls).1 in
  (allowed r = false ∧ exceededLimit r = Some minute)
  ∧ remainingMinute r = 0
  ∧ remainingHour r = Z.max 0 (5 - 5).
Proof.
  intros strict r.
  destruct (minute_cap_checked_first example_keys "phone" strict 6000
              five_calls) as [Hboth Hdenied].
  split.
  - apply Hboth; vm_compute; discriminate.
  - destruct Hdenied as [(_ & _ & Hm & Hh)|(Hhour & _)];
      [vm_compute; reflexivity | split; [exact Hm | exact Hh] |].
    vm_compute in Hhour. discriminate Hhour.
Defined.


Lemma absent_key_full_window_witness :
  resetMinuteIn (checkAndRecord example_keys 1000 "phone" example_prefs ∅).1
  = 60
  ∧ statusResetHourIn (getStatus example_keys 1000 "phone" example_prefs ∅).1
    = 3600.
Proof.
  destruct (absent_key_full_window example_keys "phone" example_prefs 1000 ∅)
    as [Hminute Hhour].
  split.
  - apply Hminute. reflexivity.
  - apply Hhour. reflexivity.
Defined.

(** The scenario of the specification: caps 5 and 100; five calls in one
    minute are allowed, the sixth is denied on the minute cap with 95
    left in the hour; a call in the next minute is allowed again. *)
Example six_calls_in_a_minute :
  (calls example_keys "phone" example_prefs
     [1000; 2000; 3000; 4000; 5000; 6000; 62000] ∅).1
  = [ Build_RateLimitResult true 4 99 60 3600 None;
      Build_RateLimitResult true 3 98 59 3599 None;
      Build_RateLimitResult true 2 97 58 3598 None;
      Build_RateLimitResult true 1 96 57 3597 None;
      Build_RateLimitResult true 0 95 56 3596 None;
      Build_RateLimitResult false 0 95 55 3595 (Some minute);
      Build_RateLimitResult true 4 94 60 3539 None ].
Proof. by vm_compute. Qed.

(** ** Parsing times of day *)

Lemma split_field (sep : ascii) (s1 s2 : string) :
  Forall (λ c, c ≠ sep) (String.list_ascii_of_string s1) →
  JS.split sep (s1 +:+ String sep s2) = s1 :: JS.split sep s2.
Proof.
  induction s1 as [|c s1 IH]; simpl; intros Hall.
  - by rewrite decide_True.
  - apply Forall_cons in Hall as [Hc Hall].
    rewrite decide_False by done. by rewrite IH.
Qed.

Lemma split_last (sep : ascii) (s : string) :
  Forall (λ c, c ≠ sep) (String.list_ascii_of_string s) →
  JS.split sep s = [s].
Proof.
  induction s as [|c s IH]; simpl; intros Hall; [done|].
  apply Forall_cons in Hall as [Hc Hall].
  rewrite decide_False by done. by rewrite IH.
Qed.

Lemma two_digits_spec (n : nat) :
  (n < 60)%nat →
  Forall (λ c, c ≠ ":"%char) (String.list_ascii_of_string (two_digits n))
  ∧ JS.Number (two_digits n) = JS.Fin (Z.of_nat n # 1).
Proof.
  intros Hn.
  do 60 (destruct n as [|n];
         [split; [by repeat constructor | by vm_compute]|]).
  lia.
Qed.

Lemma hourMinute_HHMM (h m : nat) :
  (h < 60)%nat → (m < 60)%nat →
  hourMinute (HHMM h m)
  = (Some (JS.Fin (Z.of_nat h # 1)), Some (JS.Fin (Z.of_nat m # 1))).
Proof.
  intros Hh Hm.
  destruct (two_digits_spec h Hh) as [Hsep_h Hnum_h].
  destruct (two_digits_spec m Hm) as [Hsep_m Hnum_m].
  unfold hourMinute, HHMM.
  change (":" +:+ two_digits m) with (String ":"%char (two_digits m)).
  rewrite split_field, split_last by done. simpl.
  by rewrite Hnum_h, Hnum_m.
Qed.

Lemma le_integers (a b : Z) :
  JS.le (JS.Fin (a # 1)) (JS.Fin (b # 1)) = (a <=? b).
Proof.
  unfold JS.le, Qle_bool. simpl. by rewrite !Z.mul_1_r.
Qed.

Lemma minutes_integers (h m : Z) :
  JS.add (JS.mul (JS.ToNumber (Some (JS.Fin (h # 1)))) (JS.Fin 60))
         (JS.ToNumber (Some (JS.Fin (m # 1))))
  = JS.Fin (h * 60 + m # 1).
Proof.
  unfold JS.ToNumber, JS.add, JS.mul, Qplus, Qmult. simpl.
  by rewrite !Z.mul_1_r.
Qed.

Lemma minutesOf_HHMM (h m : nat) :
  (h < 60)%nat → (m < 60)%nat →
  minutesOf (HHMM h m) = JS.Fin (Z.of_nat h * 60 + Z.of_nat m # 1).
Proof.
  intros Hh Hm. unfold minutesOf. rewrite hourMinute_HHMM by done.
  apply minutes_integers.
Qed.

Lemma truthy_HHMM (h m : nat) : truthy (Some (HHMM h m)) = Some (HHMM h m).
Proof. done. Qed.

(** [isQuietTime] once the guard is passed and the local time is known,
    in terms of [minutesOf]. *)
Lemma isQuietTime_minutes platform prefs start finish local :
  quietHoursEnabled prefs = true →
  truthy (quietHoursStart prefs) = Some start →
  truthy (quietHoursEnd prefs) = Some finish →
  userTime platform prefs = Normal local →
  isQuietTime platform prefs =
    Normal (if JS.gt (minutesOf start) (minutesOf finish)
            then JS.ge (minutesOf local) (minutesOf start)
                 || JS.le (minutesOf local) (minutesOf finish)
            else JS.ge (minutesOf local) (minutesOf start)
                 && JS.le (minutesOf local) (minutesOf finish)).
Proof.
  intros He Hs Hf Hu. unfold isQuietTime, minutesOf.
  rewrite He, Hs, Hf, Hu.
  destruct (hourMinute local), (hourMinute start), (hourMinute finish).
  by destruct (JS.gt _ _).
Qed.

Lemma isQuietTime_HHMM platform prefs (sh sm eh em ch cm : nat) :
  quietHoursEnabled prefs = true →
  quietHoursStart prefs = Some (HHMM sh sm) →
  quietHoursEnd prefs = Some (HHMM eh em) →
  userTime platform prefs = Normal (HHMM ch cm) →
  (sh < 24)%nat → (sm < 60)%nat → (eh < 24)%nat → (em < 60)%nat →
  (ch < 24)%nat → (cm < 60)%nat →
  isQuietTime platform prefs =
    Normal (inWindow (Z.of_nat ch * 60 + Z.of_nat cm)
                     (Z.of_nat sh * 60 + Z.of_nat sm)
                     (Z.of_nat eh * 60 + Z.of_nat em)).
Proof.
  intros He Hs Hf Hu ? ? ? ? ? ?.
  rewrite (isQuietTime_minutes platform prefs (HHMM sh sm) (HHMM eh em)
             (HHMM ch cm)) by (done || by rewrite ?Hs, ?Hf).
  rewrite !minutesOf_HHMM by lia.
  unfold JS.gt, JS.ge, JS.lt. rewrite !le_integers.
  unfold inWindow. by rewrite Z.ltb_antisym.
Qed.

(** ** Quiet hours *)

(** C4.  With quiet hours enabled and start, end and the local time each
    a time of day HH:MM, reduced to minutes since midnight:
    if start > end the time is quiet iff current >= start or
    current <= end, otherwise iff start <= current <= end; both ends are
    inclusive.  For 23:00 to 07:00, the local times 23:30 and 06:59 are
    quiet and 12:00 is not. *)
Theorem quiet_window_inclusive platform prefs :
  quietHoursEnabled prefs = true →
  (∀ sh sm eh em ch cm : nat,
     (sh < 24)%nat → (sm < 60)%nat → (eh < 24)%nat → (em < 60)%nat →
     (ch < 24)%nat → (cm < 60)%nat →
     quietHoursStart prefs = Some (HHMM sh sm) →
     quietHoursEnd prefs = Some (HHMM eh em) →
     userTime platform prefs = Normal (HHMM ch cm) →
     let current := Z.of_nat ch * 60 + Z.of_nat cm in
     let start := Z.of_nat sh * 60 + Z.of_nat sm in
     let finish := Z.of_nat eh * 60 + Z.of_nat em in
     isQuietTime platform prefs =
       Normal (if start >? finish
               then (current >=? start) || (current <=? finish)
               else (start <=? current) && (current <=? finish)))
  ∧ (quietHoursStart prefs = Some "23:00" →
     quietHoursEnd prefs = Some "07:00" →
     (userTime platform prefs = Normal "23:30" →
      isQuietTime platform prefs = Normal true)
     ∧ (userTime platform prefs = Normal "06:59" →
        isQuietTime platform prefs = Normal true)
     ∧ (userTime platform prefs = Normal "12:00" →
        isQuietTime platform prefs = Normal false)).
Proof.
  intros He. split.
  - intros sh sm eh em ch cm ? ? ? ? ? ? Hs Hf Hu current start finish.
    rewrite (isQuietTime_HHMM platform prefs sh sm eh em ch cm) by done.
    unfold inWindow. fold current start finish.
    by rewrite Z.gtb_ltb, Z.geb_leb.
  - intros Hs Hf. split; [|split]; intros Hu.
    + by rewrite (isQuietTime_HHMM platform prefs 23 0 7 0 23 30)
        by (done || lia).
    + by rewrite (isQuietTime_HHMM platform prefs 23 0 7 0 6 59)
        by (done || lia).
    + by rewrite (isQuietTime_HHMM platform prefs 23 0 7 0 12 0)
        by (done || lia).
Qed.

Lemma quiet_window_inclusive_witness :
  isQuietTime (example_platform (utc 22 30)) (night_prefs "Europe/Paris")
  = Normal ((23 * 60 + 30 >=? 23 * 60 + 0) || (23 * 60 + 30 <=? 7 * 60 + 0))
  ∧ isQuietTime (example_platform (utc 5 59)) (night_prefs "Europe/Paris")
    = Normal true
  ∧ isQuietTime (example_platform (utc 11 0)) (night_prefs "Europe/Paris")
    = Normal false.
Proof.
  split; [|split].
  - destruct (quiet_window_inclusive (example_platform (utc 22 30))
                (night_prefs "Europe/Paris") eq_refl) as [Hwindow _].
    apply (Hwindow 23 0 7 0 23 30)%nat; (lia || reflexivity).
  - destruct (quiet_window_inclusive (example_platform (utc 5 59))
                (night_prefs "Europe/Paris") eq_refl) as [_ Hnight].
    destruct (Hnight eq_refl eq_refl) as (_ & Hearly & _).
    apply Hearly. reflexivity.
  - destruct (quiet_window_inclusive (example_platform (utc 11 0))
                (night_prefs "Europe/Paris") eq_refl) as [_ Hnight].
    destruct (Hnight eq_refl eq_refl) as (_ & _ & Hnoon).
    apply Hnoon. reflexivity.
Defined.

(** C10.  With quiet hours enabled and start equal to end, the same-day
    branch applies and the local time is quiet at exactly that minute of
    the day and at no other: for 22:00 to 22:00, 22:00 is quiet and 22:01
    and 21:59 are not. *)
Theorem equal_start_end_single_minute platform prefs (h m ch cm : nat) :
  quietHoursEnabled prefs = true →
  (h < 24)%nat → (m < 60)%nat → (ch < 24)%nat → (cm < 60)%nat →
  quietHoursStart prefs = Some (HHMM h m) →
  quietHoursEnd prefs = Some (HHMM h m) →
  userTime platform prefs = Normal (HHMM ch cm) →
  isQuietTime platform prefs = Normal (bool_decide (ch = h ∧ cm = m)).
Proof.
  intros He ? ? ? ? Hs Hf Hu.
  rewrite (isQuietTime_HHMM platform prefs h m h m ch cm) by done.
  f_equal. unfold inWindow. rewrite Z.ltb_irrefl.
  case_bool_decide as Hd.
  - destruct Hd as [-> ->]. by rewrite Z.leb_refl.
  - apply andb_false_iff.
    destruct (Z.of_nat h * 60 + Z.of_nat m <=? Z.of_nat ch * 60 + Z.of_nat cm)
      eqn:E1; [right|by left].
    apply Z.leb_gt. apply Z.leb_le in E1.
    destruct (decide (Z.of_nat ch * 60 + Z.of_nat cm
                      = Z.of_nat h * 60 + Z.of_nat m)) as [Heq|]; [|lia].
    destruct Hd. lia.
Qed.

Lemma equal_start_end_single_minute_witness :
  isQuietTime (example_platform (utc 22 0)) evening_prefs = Normal true
  ∧ isQuietTime (example_platform (utc 22 1)) evening_prefs = Normal false
  ∧ isQuietTime (example_platform (utc 21 59)) evening_prefs = Normal false.
Proof.
  split; [|split].
  - apply (equal_start_end_single_minute (example_platform (utc 22 0))
             evening_prefs 22 0 22 0); (lia || reflexivity).
  - apply (equal_start_end_single_minute (example_platform (utc 22 1))
             evening_prefs 22 0 22 1); (lia || reflexivity).
  - apply (equal_start_end_single_minute (example_platform (utc 21 59))
             evening_prefs 22 0 21 59); (lia || reflexivity).
Defined.

(** C5.  [shouldSend] is true whenever [isQuietTime] is false; in quiet
    time it is true only if [quietHoursOverrideCritical] is set and the
    severity is [high], so [warning] never passes.  [shouldSendEvent] is
    [shouldSend] at the severity of the event: [high] for [server_down],
    [low] for [session_started], [session_stopped] and [server_up]. *)
Theorem shouldSend_policy platform prefs :
  (isQuietTime platform prefs = Normal false →
   ∀ severity, shouldSend platform prefs severity = Normal true)
  ∧ (isQuietTime platform prefs = Normal true →
     (∀ severity,
        shouldSend platform prefs severity = Normal true ↔
        quietHoursOverrideCritical prefs = true ∧ severity = high)
     ∧ (∀ severity,
          shouldSend platform prefs severity
          = Normal (quietHoursOverrideCritical prefs
                    && bool_decide (severity = high)))
     ∧ shouldSend platform prefs warning = Normal false)
  ∧ shouldSendEvent platform prefs server_down
    = shouldSend platform prefs high
  ∧ shouldSendEvent platform prefs session_started
    = shouldSend platform prefs low
  ∧ shouldSendEvent platform prefs session_stopped
    = shouldSend platform prefs low
  ∧ shouldSendEvent platform prefs server_up
    = shouldSend platform prefs low
  ∧ (∀ eventType,
       shouldSendEvent platform prefs eventType
       = shouldSend platform prefs (eventSeverity eventType)).
Proof.
  split; [|split].
  - intros Hq severity. unfold shouldSend. by rewrite Hq.
  - intros Hq.
    assert (∀ severity,
              shouldSend platform prefs severity
              = Normal (quietHoursOverrideCritical prefs
                        && bool_decide (severity = high))) as Hsend.
    { intros severity. unfold shouldSend. rewrite Hq. simpl.
      by destruct (quietHoursOverrideCritical prefs && _). }
    split; [|split; [done|]].
    + intros severity. rewrite Hsend. split.
      * intros [= Hb]. apply andb_true_iff in Hb as [Ho Hs].
        by apply bool_decide_eq_true in Hs.
      * intros [-> ->]. done.
    + rewrite Hsend. simpl. by rewrite andb_false_r.
  - repeat split; try done. by intros [].
Qed.

Lemma shouldSend_policy_witness :
  (∀ severity,
     shouldSend (example_platform (utc 12 0)) (night_prefs "UTC") severity
     = Normal true)
  ∧ shouldSend (example_platform (utc 23 0)) (night_prefs "UTC") high
    = Normal true
  ∧ shouldSend (example_platform (utc 23 0)) (night_prefs "UTC") warning
    = Normal false.
Proof.
  split; [|split].
  - destruct (shouldSend_policy (example_platform (utc 12 0))
                (night_prefs "UTC")) as [Hday _].
    apply Hday. reflexivity.
  - destruct (shouldSend_policy (example_platform (utc 23 0))
                (night_prefs "UTC")) as (_ & Hnight & _).
    destruct (Hnight eq_refl) as (Hiff & _ & _).
    apply Hiff. split; reflexivity.
  - destruct (shouldSend_policy (example_platform (utc 23 0))
                (night_prefs "UTC")) as (_ & Hnight & _).
    destruct (Hnight eq_refl) as (_ & _ & Hwarning).
    exact Hwarning.
Defined.

Lemma at_wall_clock platform :
  at_instant platform None = platform
  ∧ at_instant platform (Some (Date_now platform)) = platform.
Proof. by destruct platform. Qed.

(** C6, as amended.  [isQuietTime] and [shouldSend] take no instant: they
    read the wall clock of the host.  Their result is that of the
    contract with [now] omitted, or with [now] the wall-clock instant,
    so for given preferences and severity it is determined by the wall
    clock and the time-zone data of the host. *)
Theorem quiet_hours_read_wall_clock platform prefs severity :
  isQuietTime platform prefs = isQuietTime_contract platform prefs None
  ∧ isQuietTime platform prefs
    = isQuietTime_contract platform prefs (Some (Date_now platform))
  ∧ shouldSend platform prefs severity
    = shouldSend_contract platform prefs severity None
  ∧ shouldSend platform prefs severity
    = shouldSend_contract platform prefs severity (Some (Date_now platform))
  ∧ (∀ host,
       Date_now host = Date_now platform →
       Intl_format host = Intl_format platform →
       isQuietTime host prefs = isQuietTime platform prefs
       ∧ shouldSend host prefs severity = shouldSend platform prefs severity).
Proof.
  unfold isQuietTime_contract, shouldSend_contract.
  destruct (at_wall_clock platform) as [-> ->].
  repeat split; try done; destruct host, platform; simpl in *; by subst.
Qed.

Lemma quiet_hours_read_wall_clock_witness :
  isQuietTime (at_instant (example_platform (utc 12 0)) (Some (utc 23 30)))
    (night_prefs "UTC")
  = isQuietTime (example_platform (utc 23 30)) (night_prefs "UTC")
  ∧ shouldSend (at_instant (example_platform (utc 12 0)) (Some (utc 23 30)))
      (night_prefs "UTC") low
    = shouldSend (example_platform (utc 23 30)) (night_prefs "UTC") low.
Proof.
  destruct (quiet_hours_read_wall_clock (example_platform (utc 23 30))
              (night_prefs "UTC") low) as (_ & _ & _ & _ & Hhost).
  apply Hhost; reflexivity.
Defined.

(** C6, as stated, fails: the result of the source is not the result at a
    supplied instant.  At noon UTC, with quiet hours from 23:00 to 07:00
    UTC, the contract at the supplied instant 23:30 is quiet and
    suppresses a [low] notification; the source reports not quiet and
    sends it. *)
Lemma supplied_instant_not_used :
  ¬ (∀ platform prefs now,
       isQuietTime platform prefs = isQuietTime_contract platform prefs now)
  ∧ ¬ (∀ platform prefs severity now,
         shouldSend platform prefs severity
         = shouldSend_contract platform prefs severity now)
  ∧ isQuietTime (example_platform (utc 12 0)) (night_prefs "UTC")
    = Normal false
  ∧ isQuietTime_contract (example_platform (utc 12 0)) (night_prefs "UTC")
      (Some (utc 23 30))
    = Normal true
  ∧ shouldSend (example_platform (utc 12 0)) (night_prefs "UTC") low
    = Normal true
  ∧ shouldSend_contract (example_platform (utc 12 0)) (night_prefs "UTC") low
      (Some (utc 23 30))
    = Normal false.
Proof.
  split; [|split; [|by vm_compute]].
  - intros H.
    specialize (H (example_platform (utc 12 0)) (night_prefs "UTC")
                  (Some (utc 23 30))).
    vm_compute in H. discriminate H.
  - intros H.
    specialize (H (example_platform (utc 12 0)) (night_prefs "UTC") low
                  (Some (utc 23 30))).
    vm_compute in H. discriminate H.
Qed.

Lemma userTime_returns platform prefs :
  (∀ instant, is_Some (Intl_format platform "UTC" instant)) →
  ∃ local, userTime platform prefs = Normal local.
Proof.
  intros Hutc. unfold userTime.
  destruct (Intl_format platform _ _) as [local|]; [by eauto|].
  destruct (Hutc (Date_now platform)) as [local ->]. by eauto.
Qed.

Lemma userTime_fallback platform prefs :
  Intl_format platform (quietHoursTimezone prefs) (Date_now platform) = None →
  userTime platform prefs = userTime platform (with_timezone "UTC" prefs).
Proof.
  intros Hzone. unfold userTime. simpl.
  destruct (quietHoursTimezone prefs) as [|c zone] eqn:Hz; simpl.
  - by destruct (Intl_format platform "UTC" _).
  - rewrite Hzone. by destruct (Intl_format platform "UTC" _).
Qed.

Lemma nan_never_in_window (current start finish : JS.number) :
  start = JS.NaN ∨ finish = JS.NaN →
  (if JS.gt start finish
   then JS.ge current start || JS.le current finish
   else JS.ge current start && JS.le current finish) = false.
Proof.
  intros [-> | ->].
  - unfold JS.gt, JS.ge. simpl.
    by destruct finish, current.
  - assert (JS.gt start JS.NaN = false) as -> by by destruct start.
    assert (JS.le current JS.NaN = false) as -> by by destruct current.
    apply andb_false_r.
Qed.

(** C7, as amended.  With UTC known to the host, [isQuietTime] never
    throws: it returns a boolean for all preferences, and where the host
    does not know the configured time zone it decides as for UTC.  If the
    start or the end string reduces to NaN under the parsing of the
    service (it has no second field, or a field that is not a numeric
    literal), [isQuietTime] returns false. *)
Theorem configuration_errors_recovered platform prefs :
  (∀ instant, is_Some (Intl_format platform "UTC" instant)) →
  (∃ quiet, isQuietTime platform prefs = Normal quiet)
  ∧ (Intl_format platform (quietHoursTimezone prefs) (Date_now platform)
     = None →
     isQuietTime platform prefs
     = isQuietTime platform (with_timezone "UTC" prefs))
  ∧ (∀ start finish,
       quietHoursStart prefs = Some start →
       quietHoursEnd prefs = Some finish →
       minutesOf start = JS.NaN ∨ minutesOf finish = JS.NaN →
       isQuietTime platform prefs = Normal false).
Proof.
  intros Hutc.
  destruct (userTime_returns platform prefs Hutc) as [local Hlocal].
  assert (∀ start finish,
            quietHoursStart prefs = Some start →
            quietHoursEnd prefs = Some finish →
            quietHoursEnabled prefs = false ∨ start = "" ∨ finish = "" →
            isQuietTime platform prefs = Normal false) as Hguard.
  { intros start finish Hs Hf Hcase. unfold isQuietTime. rewrite Hs, Hf.
    destruct (quietHoursEnabled prefs); [|done].
    destruct Hcase as [?|[-> | ->]]; [done|done|].
    by destruct (truthy (Some start)). }
  split; [|split].
  - unfold isQuietTime. rewrite Hlocal.
    destruct (quietHoursEnabled prefs); [|by eauto].
    destruct (truthy (quietHoursStart prefs)); [|by eauto].
    destruct (truthy (quietHoursEnd prefs)); [|by eauto].
    destruct (hourMinute local), (hourMinute s), (hourMinute s0).
    destruct (JS.gt _ _); by eauto.
  - intros Hzone. unfold isQuietTime.
    by rewrite (userTime_fallback platform prefs Hzone).
  - intros start finish Hs Hf Hnan.
    destruct (quietHoursEnabled prefs) eqn:He; [|by eauto].
    destruct start as [|c start]; [by eauto|].
    destruct finish as [|c' finish]; [by eauto 10|].
    rewrite (isQuietTime_minutes platform prefs _ _ local He)
      by (by rewrite ?Hs, ?Hf).
    by rewrite nan_never_in_window.
Qed.

Lemma example_platform_knows_UTC now instant :
  is_Some (Intl_format (example_platform now) "UTC" instant).
Proof.
  simpl. unfold example_format.
  assert (list_to_map (M := gmap string Z) example_zones !! "UTC" = Some 0)
    as -> by by vm_compute.
  simpl. by eexists.
Qed.

Lemma configuration_errors_recovered_witness :
  (∃ quiet,
     isQuietTime (example_platform (utc 23 30)) (careless_prefs "2300")
     = Normal quiet)
  ∧ isQuietTime (example_platform (utc 23 30)) (careless_prefs "2300")
    = isQuietTime (example_platform (utc 23 30))
        (with_timezone "UTC" (careless_prefs "2300"))
  ∧ isQuietTime (example_platform (utc 23 30)) (careless_prefs "2300")
    = Normal false.
Proof.
  destruct (configuration_errors_recovered (example_platform (utc 23 30))
              (careless_prefs "2300")
              (example_platform_knows_UTC (utc 23 30)))
    as (Hreturns & Hzone & Hnan).
  split; [exact Hreturns|]. split.
  - apply Hzone. reflexivity.
  - apply (Hnan "2300" "07:00"); [reflexivity | reflexivity |].
    left. reflexivity.
Defined.

Lemma HHMM_length (h m : nat) : String.length (HHMM h m) = 5%nat.
Proof. done. Qed.

(** C7, as stated, fails: a start string that is not a time of day HH:MM
    does not disable quiet hours when its fields are numeric literals.
    ["23:"] counts as 23:00 (the empty field is 0), ["23:00:xx"] as 23:00
    (fields after the second are dropped), and ["99:99"] as minute 6039,
    which is after the end and opens a window across midnight. *)
Lemma malformed_time_still_quiet :
  (¬ wellFormed "23:"
   ∧ isQuietTime (example_platform (utc 23 30)) (careless_prefs "23:")
     = Normal true)
  ∧ (¬ wellFormed "23:00:xx"
     ∧ isQuietTime (example_platform (utc 23 30)) (careless_prefs "23:00:xx")
       = Normal true)
  ∧ (¬ wellFormed "99:99"
     ∧ isQuietTime (example_platform (utc 6 0)) (careless_prefs "99:99")
       = Normal true).
Proof.
  split; [|split]; (split; [|by vm_compute]).
  - intros (h & m & _ & _ & H). apply (f_equal String.length) in H.
    by rewrite HHMM_length in H.
  - intros (h & m & _ & _ & H). apply (f_equal String.length) in H.
    by rewrite HHMM_length in H.
  - intros (h & m & Hh & _ & H).
    do 24 (destruct h as [|h]; [by simpl in H|]). lia.
Qed.

(** Strings that reduce to NaN, and so leave quiet hours off. *)
Example minutesOf_nan :
  minutesOf "abc" = JS.NaN ∧ minutesOf "2300" = JS.NaN
  ∧ minutesOf "11pm" = JS.NaN ∧ minutesOf "23:xx" = JS.NaN
  ∧ minutesOf "23h00" = JS.NaN ∧ minutesOf "23.00" = JS.NaN.
Proof. by vm_compute. Qed.

(** ** Scenarios *)

(** A window within the day, 01:00 to 06:00: 00:30 is outside, 03:00 and
    both ends are inside. *)
Example same_day_window :
  isQuietTime (example_platform (utc 0 30)) (quiet_between "01:00" "06:00" false)
  = Normal false
  ∧ isQuietTime (example_platform (utc 3 0)) (quiet_between "01:00" "06:00" false)
    = Normal true
  ∧ isQuietTime (example_platform (utc 1 0)) (quiet_between "01:00" "06:00" false)
    = Normal true
  ∧ isQuietTime (example_platform (utc 6 0)) (quiet_between "01:00" "06:00" false)
    = Normal true
  ∧ isQuietTime (example_platform (utc 6 1)) (quiet_between "01:00" "06:00" false)
    = Normal false.
Proof. by vm_compute. Qed.

(** Quiet hours 22:00 to 06:00 with the override for critical
    notifications: at 23:00 a [server_down] event is sent and a
    [session_started] event is not; without the override neither is. *)
Example server_down_overrides :
  shouldSendEvent (example_platform (utc 23 0))
    (quiet_between "22:00" "06:00" true) server_down = Normal true
  ∧ shouldSendEvent (example_platform (utc 23 0))
      (quiet_between "22:00" "06:00" true) session_started = Normal false
  ∧ shouldSendEvent (example_platform (utc 23 0))
      (quiet_between "22:00" "06:00" false) server_down = Normal false.
Proof. by vm_compute. Qed.

(** The hour is taken as the host writes it.  Where the host writes the
    first hour of the day as 24, half past midnight is minute 1470: inside
    a window across midnight, outside a window that starts at 00:00. *)
Example first_hour_written_24 :
  minutesOf "24:30" = JS.Fin 1470
  ∧ isQuietTime h24_platform (quiet_between "23:00" "07:00" false)
    = Normal true
  ∧ isQuietTime h24_platform (quiet_between "00:00" "06:00" false)
    = Normal false.
Proof. by vm_compute. Qed.

(** * More on the rate limiter *)

(** ** What a call reads and writes *)

Lemma find_lookup now k d1 d2 :
  d1 !! k = d2 !! k → Redis.find now k d1 = Redis.find now k d2.
Proof. unfold Redis.find. by intros ->. Qed.

Lemma countAt_lookup now k d1 d2 :
  d1 !! k = d2 !! k → countAt now k d1 = countAt now k d2.
Proof.
  intros H. unfold countAt, Redis.GET. simpl. by rewrite (find_lookup _ _ _ _ H).
Qed.

Lemma ttlAt_lookup now k d1 d2 :
  d1 !! k = d2 !! k → ttlAt now k d1 = ttlAt now k d2.
Proof.
  intros H. unfold ttlAt, Redis.TTL. simpl. by rewrite (find_lookup _ _ _ _ H).
Qed.

(** The store a call leaves, whichever way it goes. *)
Lemma checkAndRecord_store REDIS_KEYS now sid prefs d :
  let mk := PUSH_RATE_MINUTE REDIS_KEYS sid in
  let hk := PUSH_RATE_HOUR REDIS_KEYS sid in
  mk ≠ hk →
  (checkAndRecord REDIS_KEYS now sid prefs d).2 =
    if allowed (checkAndRecord REDIS_KEYS now sid prefs d).1
    then <[hk := bumped now 3600 (Redis.find now hk d)]>
           (<[mk := bumped now 60 (Redis.find now mk d)]> d)
    else d.
Proof.
  intros mk hk Hne.
  destruct (Z.le_gt_cases (maxPerMinute prefs) (countAt now mk d)) as [Hm|Hm].
  { by rewrite checkAndRecord_minute_exceeded. }
  destruct (Z.le_gt_cases (maxPerHour prefs) (countAt now hk d)) as [Hh|Hh].
  { by rewrite checkAndRecord_hour_exceeded. }
  by rewrite checkAndRecord_recorded.
Qed.

(** A call reads the store at its own two keys only. *)
Lemma checkAndRecord_reads REDIS_KEYS now sid prefs d1 d2 :
  let mk := PUSH_RATE_MINUTE REDIS_KEYS sid in
  let hk := PUSH_RATE_HOUR REDIS_KEYS sid in
  mk ≠ hk → d1 !! mk = d2 !! mk → d1 !! hk = d2 !! hk →
  (checkAndRecord REDIS_KEYS now sid prefs d1).1
  = (checkAndRecord REDIS_KEYS now sid prefs d2).1.
Proof.
  intros mk hk Hne Hmk Hhk.
  pose proof (countAt_lookup now mk _ _ Hmk) as Hcm.
  pose proof (countAt_lookup now hk _ _ Hhk) as Hch.
  pose proof (ttlAt_lookup now mk _ _ Hmk) as Htm.
  pose proof (ttlAt_lookup now hk _ _ Hhk) as Hth.
  destruct (Z.le_gt_cases (maxPerMinute prefs) (countAt now mk d1)) as [Hm|Hm].
  { rewrite !checkAndRecord_minute_exceeded by (fold mk; lia). simpl.
    fold mk hk. by rewrite Hch, Htm, Hth. }
  destruct (Z.le_gt_cases (maxPerHour prefs) (countAt now hk d1)) as [Hh|Hh].
  { rewrite !checkAndRecord_hour_exceeded by (fold mk hk; lia). simpl.
    fold mk hk. by rewrite Hcm, Htm, Hth. }
  rewrite !checkAndRecord_recorded by (fold mk hk; (done || lia)). simpl.
  fold mk hk. by rewrite Hcm, Hch, Htm, Hth.
Qed.

Lemma checkAndRecord_other REDIS_KEYS now sid prefs d k :
  PUSH_RATE_MINUTE REDIS_KEYS sid ≠ PUSH_RATE_HOUR REDIS_KEYS sid →
  k ≠ PUSH_RATE_MINUTE REDIS_KEYS sid → k ≠ PUSH_RATE_HOUR REDIS_KEYS sid →
  (checkAndRecord REDIS_KEYS now sid prefs d).2 !! k = d !! k.
Proof.
  intros Hne Hm Hh. rewrite checkAndRecord_store by done.
  destruct (allowed _); [|done]. by rewrite !lookup_insert_ne.
Qed.

Lemma calls_other REDIS_KEYS sid prefs times k : ∀ d,
  PUSH_RATE_MINUTE REDIS_KEYS sid ≠ PUSH_RATE_HOUR REDIS_KEYS sid →
  k ≠ PUSH_RATE_MINUTE REDIS_KEYS sid → k ≠ PUSH_RATE_HOUR REDIS_KEYS sid →
  (calls REDIS_KEYS sid prefs times d).2 !! k = d !! k.
Proof.
  induction times as [|t times IH]; intros d Hne Hm Hh; [done|].
  rewrite calls_cons.
  pose proof (checkAndRecord_other REDIS_KEYS t sid prefs d k Hne Hm Hh) as H1.
  destruct (checkAndRecord REDIS_KEYS t sid prefs d) as [r d1].
  specialize (IH d1 Hne Hm Hh).
  destruct (calls REDIS_KEYS sid prefs times d1) as [rs d2]. simpl in *.
  by rewrite IH.
Qed.

Lemma getStatus_lookup REDIS_KEYS now sid prefs d1 d2 :
  d1 !! PUSH_RATE_MINUTE REDIS_KEYS sid = d2 !! PUSH_RATE_MINUTE REDIS_KEYS sid →
  d1 !! PUSH_RATE_HOUR REDIS_KEYS sid = d2 !! PUSH_RATE_HOUR REDIS_KEYS sid →
  (getStatus REDIS_KEYS now sid prefs d1).1
  = (getStatus REDIS_KEYS now sid prefs d2).1.
Proof.
  intros Hmk Hhk. rewrite !getStatus_reads. simpl.
  by rewrite (countAt_lookup _ _ _ _ Hmk), (countAt_lookup _ _ _ _ Hhk),
    (ttlAt_lookup _ _ _ _ Hmk), (ttlAt_lookup _ _ _ _ Hhk).
Qed.

(** X3.  With a collision-free key scheme, a sequence of calls of one
    session, or a reset of it, leaves every other session as it was: the
    status of the other session and the result of its next call are the
    same as without them. *)
Theorem sessions_independent REDIS_KEYS (a b : string)
    (prefsA prefsB : RateLimitPrefs) (times : list Z) (now t : Z)
    (d : Redis.db) :
  collision_free REDIS_KEYS → a ≠ b →
  let called := (calls REDIS_KEYS a prefsA times d).2 in
  let cleared := (reset REDIS_KEYS now a d).2 in
  (getStatus REDIS_KEYS t b prefsB called).1
  = (getStatus REDIS_KEYS t b prefsB d).1
  ∧ (checkAndRecord REDIS_KEYS t b prefsB called).1
    = (checkAndRecord REDIS_KEYS t b prefsB d).1
  ∧ (getStatus REDIS_KEYS t b prefsB cleared).1
    = (getStatus REDIS_KEYS t b prefsB d).1
  ∧ (checkAndRecord REDIS_KEYS t b prefsB cleared).1
    = (checkAndRecord REDIS_KEYS t b prefsB d).1.
Proof.
  intros (Hmh & Hmm & Hhh) Hab called cleared.
  assert (∀ k, k = PUSH_RATE_MINUTE REDIS_KEYS b ∨ k = PUSH_RATE_HOUR REDIS_KEYS b →
            k ≠ PUSH_RATE_MINUTE REDIS_KEYS a ∧ k ≠ PUSH_RATE_HOUR REDIS_KEYS a)
    as Hdisj.
  { intros k [-> | ->]; split; intros Heq.
    - apply Hab. symmetry. by apply Hmm.
    - by apply (Hmh b a).
    - by apply (Hmh a b).
    - apply Hab. symmetry. by apply Hhh. }
  assert (∀ k, k = PUSH_RATE_MINUTE REDIS_KEYS b ∨ k = PUSH_RATE_HOUR REDIS_KEYS b →
            called !! k = d !! k ∧ cleared !! k = d !! k) as Hsame.
  { intros k Hk. destruct (Hdisj k Hk) as [H1 H2]. split.
    - by apply calls_other.
    - unfold cleared, reset, mbind, mret, Redis.bind, Redis.ret, Redis.DEL.
      simpl. by rewrite !lookup_delete_ne. }
  destruct (Hsame _ (or_introl eq_refl)) as [Hcm Hrm].
  destruct (Hsame _ (or_intror eq_refl)) as [Hch Hrh].
  repeat split.
  - by apply getStatus_lookup.
  - by apply checkAndRecord_reads.
  - by apply getStatus_lookup.
  - by apply checkAndRecord_reads.
Qed.

Lemma ttlAt_bumped now w k d d0 :
  0 < w →
  ttlAt now k (<[k := bumped now w (Redis.find now k d)]> d0)
  = if ttlAt now k d <? 0 then w else ttlAt now k d.
Proof.
  intros Hw. pose proof (ttl_neg now k d) as Hneg.
  unfold ttlAt, Redis.TTL in *. simpl in *. rewrite find_insert_eq.
  destruct (Redis.find now k d) as [[v ex]|] eqn:Hf; simpl in *.
  - apply find_live in Hf. unfold Redis.expired in *. simpl in *.
    destruct ex as [t|]; simpl.
    + rewrite Hf. destruct (_ <? 0) eqn:E; [|done].
      apply Z.ltb_lt, Hneg in E. done.
    + destruct (now + w * 1000 <? now) eqn:E; [lia|]. simpl.
      replace (now + w * 1000 - now + 500) with (500 + w * 1000) by lia.
      rewrite Z.div_add by lia. done.
  - unfold Redis.expired. simpl.
    destruct (now + w * 1000 <? now) eqn:E; [lia|]. simpl.
    replace (now + w * 1000 - now + 500) with (500 + w * 1000) by lia.
    rewrite Z.div_add by lia. done.
Qed.

Lemma ttlAt_insert_ne now k k' x d :
  k' ≠ k → ttlAt now k (<[k' := x]> d) = ttlAt now k d.
Proof.
  intros Hne. unfold ttlAt, Redis.TTL. simpl. by rewrite find_insert_ne.
Qed.

Section MoreOnTheLimiter.

Variable REDIS_KEYS : RedisKeys.
Variables (sid : string) (prefs : RateLimitPrefs).

Let mk := PUSH_RATE_MINUTE REDIS_KEYS sid.
Let hk := PUSH_RATE_HOUR REDIS_KEYS sid.

(** X1.  After [reset], whatever the store held, [getStatus] reports the
    whole budget, [max 0 cap] in both windows, with 60 and 3600 to reset,
    and the next [checkAndRecord] is allowed exactly when both caps are
    positive. *)
Theorem reset_restores_full_budget (now t : Z) (d : Redis.db) :
  let d' := (reset REDIS_KEYS now sid d).2 in
  (getStatus REDIS_KEYS t sid prefs d').1
  = {| statusRemainingMinute := Z.max 0 (maxPerMinute prefs);
       statusRemainingHour := Z.max 0 (maxPerHour prefs);
       statusResetMinuteIn := 60;
       statusResetHourIn := 3600 |}
  ∧ (allowed (checkAndRecord REDIS_KEYS t sid prefs d').1 = true
     ↔ 0 < maxPerMinute prefs ∧ 0 < maxPerHour prefs).
Proof.
  intros d'.
  destruct (reset_clears REDIS_KEYS now sid d t) as [Hm Hh].
  fold d' mk hk in Hm, Hh.
  assert (countAt t mk d' = 0) as Hcm
    by (unfold countAt, Redis.GET; simpl; by rewrite Hm).
  assert (countAt t hk d' = 0) as Hch
    by (unfold countAt, Redis.GET; simpl; by rewrite Hh).
  split.
  - rewrite getStatus_reads. fold mk hk. simpl.
    rewrite Hcm, Hch, (absent_ttl _ _ _ Hm), (absent_ttl _ _ _ Hh).
    simpl. by rewrite !Z.sub_0_r.
  - rewrite checkAndRecord_allowed_iff. fold mk hk. by rewrite Hcm, Hch.
Qed.

Hypothesis keys_distinct : mk ≠ hk.

(** X2.  What a call reports is what [getStatus] reports right after it:
    the same remaining budgets and the same reset times, whether the call
    was allowed or denied. *)
Theorem status_agrees_with_last_call (now : Z) (d : Redis.db) :
  let r := (checkAndRecord REDIS_KEYS now sid prefs d).1 in
  let d' := (checkAndRecord REDIS_KEYS now sid prefs d).2 in
  (getStatus REDIS_KEYS now sid prefs d').1
  = {| statusRemainingMinute := remainingMinute r;
       statusRemainingHour := remainingHour r;
       statusResetMinuteIn := resetMinuteIn r;
       statusResetHourIn := resetHourIn r |}.
Proof.
  intros r d'. subst r d'. rewrite getStatus_reads. fold mk hk.
  destruct (Z.le_gt_cases (maxPerMinute prefs) (countAt now mk d)) as [Hm|Hm].
  { rewrite checkAndRecord_minute_exceeded by done. simpl. fold mk hk.
    f_equal. lia. }
  destruct (Z.le_gt_cases (maxPerHour prefs) (countAt now hk d)) as [Hh|Hh].
  { rewrite checkAndRecord_hour_exceeded by done. simpl. fold mk hk.
    f_equal. lia. }
  rewrite checkAndRecord_recorded by done. simpl. fold mk hk.
  rewrite countAt_bumped by lia.
  rewrite countAt_insert_ne by done.
  rewrite countAt_bumped by lia.
  rewrite ttlAt_bumped by lia.
  rewrite ttlAt_insert_ne by done.
  rewrite ttlAt_bumped by lia.
  f_equal.
  - by destruct (ttlAt now mk d <? 0).
  - by destruct (ttlAt now hk d <? 0).
Qed.

(** X4.  An allowed call opens a window once and never extends it.  For
    the minute key with 60 seconds and the hour key with 3600: an absent
    key gets count 1 and expires the window length from now; a key with
    an expiry keeps that expiry and counts one more; a key without expiry
    counts one more and expires the window length from now. *)
Theorem window_opened_once (now : Z) (d : Redis.db) :
  allowed (checkAndRecord REDIS_KEYS now sid prefs d).1 = true →
  let d' := (checkAndRecord REDIS_KEYS now sid prefs d).2 in
  ∀ k w, (k = mk ∧ w = 60) ∨ (k = hk ∧ w = 3600) →
    (Redis.find now k d = None →
     d' !! k = Some (Redis.Entry 1 (Some (now + w * 1000))))
    ∧ (∀ v t, Redis.find now k d = Some (Redis.Entry v (Some t)) →
         d' !! k = Some (Redis.Entry (v + 1) (Some t)))
    ∧ (∀ v, Redis.find now k d = Some (Redis.Entry v None) →
         d' !! k = Some (Redis.Entry (v + 1) (Some (now + w * 1000)))).
Proof.
  intros Hal d' k w Hk. subst d'.
  rewrite checkAndRecord_store by done. rewrite Hal. fold mk hk.
  assert (<[hk := bumped now 3600 (Redis.find now hk d)]>
            (<[mk := bumped now 60 (Redis.find now mk d)]> d) !! k
          = Some (bumped now w (Redis.find now k d))) as ->.
  { destruct Hk as [[-> ->]|[-> ->]].
    - by rewrite lookup_insert_ne, lookup_insert_eq.
    - by rewrite lookup_insert_eq. }
  repeat split.
  - by intros ->.
  - by intros v t ->.
  - by intros v ->.
Qed.

End MoreOnTheLimiter.

(** ** Denials and bursts *)

(** A key that has not expired by [later] reads at [later] as it read at
    any earlier instant. *)
Lemma find_until_expiry now later k d :
  now ≤ later →
  (∀ e t, Redis.find now k d = Some e → Redis.expireAt e = Some t → later ≤ t) →
  Redis.find later k d = Redis.find now k d.
Proof.
  intros Hle Hlive.
  destruct (Redis.find now k d) as [e|] eqn:Hf.
  - specialize (Hlive e). unfold Redis.find, Redis.expired in *.
    destruct (d !! k) as [e'|]; [|done].
    destruct (Redis.expireAt e') as [t|] eqn:Hex; [|done].
    destruct (t <? now) eqn:E; [done|]. injection Hf as <-.
    specialize (Hlive t eq_refl Hex).
    by destruct (t <? later) eqn:E'; [lia|].
  - by apply (absent_fresh_since now k d Hf).
Qed.

Section DenialsAndBursts.

Variable REDIS_KEYS : RedisKeys.
Variables (sid : string) (prefs : RateLimitPrefs).

Let mk := PUSH_RATE_MINUTE REDIS_KEYS sid.
Let hk := PUSH_RATE_HOUR REDIS_KEYS sid.

(** X5.  A denial lasts as long as the counter that caused it: after a
    denied call, a call at any later instant up to the expiry of the
    exceeded counter is denied again. *)
Theorem denial_lasts_until_expiry (now later : Z) (d : Redis.db) :
  let r := (checkAndRecord REDIS_KEYS now sid prefs d).1 in
  let d' := (checkAndRecord REDIS_KEYS now sid prefs d).2 in
  let exceeded := if exceededLimit r is Some hour then hk else mk in
  allowed r = false → now ≤ later →
  (∀ e t, Redis.find now exceeded d = Some e →
          Redis.expireAt e = Some t → later ≤ t) →
  allowed (checkAndRecord REDIS_KEYS later sid prefs d').1 = false.
Proof.
  intros r d' exceeded Hden Hle Hlive. subst r d' exceeded.
  apply not_true_iff_false. rewrite checkAndRecord_allowed_iff. fold mk hk.
  destruct (Z.le_gt_cases (maxPerMinute prefs) (countAt now mk d)) as [Hm|Hm].
  { rewrite checkAndRecord_minute_exceeded in Hlive |- * by done.
    simpl in *. fold mk in Hlive.
    assert (countAt later mk d = countAt now mk d) as Hc.
    { unfold countAt, Redis.GET. simpl.
      by rewrite (find_until_expiry now later mk d). }
    lia. }
  destruct (Z.le_gt_cases (maxPerHour prefs) (countAt now hk d)) as [Hh|Hh].
  { rewrite checkAndRecord_hour_exceeded in Hlive |- * by done.
    simpl in *. fold hk in Hlive.
    assert (countAt later hk d = countAt now hk d) as Hc.
    { unfold countAt, Redis.GET. simpl.
      by rewrite (find_until_expiry now later hk d). }
    lia. }
  apply not_true_iff_false in Hden. destruct Hden.
  by apply checkAndRecord_allowed_iff.
Qed.

(** X7.  A cap of zero, or less, closes the limiter: where the stored
    counts are not negative, no call of any sequence is allowed and the
    store stays as it was. *)
Theorem zero_cap_always_denies (times : list Z) (d : Redis.db) :
  maxPerMinute prefs ≤ 0 ∨ maxPerHour prefs ≤ 0 →
  (∀ t, 0 ≤ countAt t mk d ∧ 0 ≤ countAt t hk d) →
  (calls REDIS_KEYS sid prefs times d).2 = d
  ∧ Forall (λ r, allowed r = false) (calls REDIS_KEYS sid prefs times d).1.
Proof.
  intros Hcap Hpos. induction times as [|t times IH]; [done|].
  rewrite calls_cons.
  assert (allowed (checkAndRecord REDIS_KEYS t sid prefs d).1 = false) as Hden.
  { apply not_true_iff_false. rewrite checkAndRecord_allowed_iff.
    fold mk hk. destruct (Hpos t). lia. }
  assert ((checkAndRecord REDIS_KEYS t sid prefs d).2 = d) as Hd.
  { destruct (Z.le_gt_cases (maxPerMinute prefs) (countAt t mk d)) as [Hm|Hm].
    { by rewrite checkAndRecord_minute_exceeded. }
    destruct (Z.le_gt_cases (maxPerHour prefs) (countAt t hk d)) as [Hh|Hh].
    { by rewrite checkAndRecord_hour_exceeded. }
    destruct (Hpos t). lia. }
  destruct (checkAndRecord REDIS_KEYS t sid prefs d) as [r d1].
  simpl in *. subst d1.
  destruct (calls REDIS_KEYS sid prefs times d) as [rs d2]. simpl in *.
  destruct IH as [-> Hall]. split; [done|]. by constructor.
Qed.

Hypothesis keys_distinct : mk ≠ hk.

Lemma burst_step (t0 : Z) (times : list Z) : ∀ c d,
  window_inv t0 60 mk c d → window_inv t0 3600 hk c d →
  maxPerMinute prefs ≤ maxPerHour prefs →
  Forall (λ t, t0 ≤ t ≤ t0 + 60 * 1000) times →
  let results := (calls REDIS_KEYS sid prefs times d).1 in
  length results = length times
  ∧ ∀ (i : nat) r, results !! i = Some r →
      (allowed r = true ↔ c + Z.of_nat i < maxPerMinute prefs)
      ∧ (allowed r = false → exceededLimit r = Some minute).
Proof.
  induction times as [|t times IH]; intros c d Him Hih Hcaps Hts results.
  { subst results. simpl. split; [done|]. by intros i r. }
  apply Forall_cons in Hts as [Ht Hts]. subst results. rewrite calls_cons.
  assert (countAt t mk d = c) as Hcm by by apply (window_count t0 60).
  assert (countAt t hk d = c) as Hch by (apply (window_count t0 3600); [done|lia]).
  pose proof (checkAndRecord_allowed_iff REDIS_KEYS t sid prefs d) as Hiff.
  pose proof (checkAndRecord_store REDIS_KEYS t sid prefs d keys_distinct) as Hst.
  fold mk hk in Hiff, Hst. rewrite Hcm, Hch in Hiff.
  assert (allowed (checkAndRecord REDIS_KEYS t sid prefs d).1 = false →
          exceededLimit (checkAndRecord REDIS_KEYS t sid prefs d).1 = Some minute)
    as Hwhy.
  { intros Hden.
    destruct (Z.le_gt_cases (maxPerMinute prefs) (countAt t mk d)) as [Hm|Hm].
    { by rewrite checkAndRecord_minute_exceeded. }
    apply not_true_iff_false in Hden. destruct Hden. apply Hiff. lia. }
  destruct (checkAndRecord REDIS_KEYS t sid prefs d) as [r d1]. simpl in *.
  specialize (IH (c + if allowed r then 1 else 0) d1).
  destruct (calls REDIS_KEYS sid prefs times d1) as [rs d2]. simpl in *.
  destruct IH as [Hlen Hres]; [..|done|done|].
  { subst d1. destruct (allowed r).
    - apply window_other; [done|]. by apply window_bumped.
    - by rewrite Z.add_0_r. }
  { subst d1. destruct (allowed r).
    - apply window_bumped; [done|lia].
    - by rewrite Z.add_0_r. }
  split; [by rewrite Hlen|].
  intros [|i] r' Hr'; simpl in Hr'.
  - injection Hr' as <-. rewrite Z.add_0_r. split; [|done].
    rewrite Hiff. lia.
  - destruct (Hres i r' Hr') as [Hal Hmin]. split; [|done].
    rewrite Hal. destruct (allowed r) eqn:Har.
    + lia.
    + assert (¬ c < maxPerMinute prefs) as Hfull.
      { intros Hlt. destruct Hiff as [_ Hiff].
        assert (false = true) as Hff by (apply Hiff; lia). discriminate Hff. }
      lia.
Qed.

(** X6.  In a fresh minute, with fresh minute and hour keys and the minute
    cap no larger than the hour cap, the calls of a sequence are allowed
    in order until the minute cap is reached: the call at position [i]
    (from 0) is allowed exactly when [i < maxPerMinute], and every later one
    is denied on the minute cap. *)
Theorem burst_first_calls_allowed (t0 : Z) (times : list Z) (d : Redis.db) :
  Redis.find t0 mk d = None → Redis.find t0 hk d = None →
  maxPerMinute prefs ≤ maxPerHour prefs →
  Forall (λ t, t0 ≤ t ≤ t0 + 60 * 1000) times →
  let results := (calls REDIS_KEYS sid prefs times d).1 in
  length results = length times
  ∧ (∀ (i : nat) r, results !! i = Some r →
       (allowed r = true ↔ Z.of_nat i < maxPerMinute prefs)
       ∧ (allowed r = false → exceededLimit r = Some minute)).
Proof.
  intros Hm Hh Hcaps Hts.
  apply (burst_step t0 times 0 d); try done.
  - left. split; [done|]. by apply absent_fresh_since.
  - left. split; [done|]. by apply absent_fresh_since.
Qed.

End DenialsAndBursts.

(** ** The stores the limiter keeps *)

Lemma find_Some_lookup now k d e :
  Redis.find now k d = Some e → d !! k = Some e.
Proof.
  unfold Redis.find. destruct (d !! k) as [e'|]; [|done].
  destruct (Redis.expired now e'); [done|]. by intros [= ->].
Qed.

Lemma entry_kept_bumped T w cap now o :
  now ≤ T → entry_kept T w cap o →
  default 0 (Redis.value <$> o) < cap →
  entry_kept T w cap (Some (bumped now w o)).
Proof.
  intros HT Hk Hc. destruct o as [[v ex]|]; simpl in *.
  - destruct Hk as [Hv (t & -> & Ht)]. split; [lia|]. by exists t.
  - split; [lia|]. exists (now + w * 1000). split; [done|lia].
Qed.

Lemma entry_kept_reads T w cap now k d :
  0 ≤ w → entry_kept T w cap (d !! k) →
  entry_kept T w cap (Redis.find now k d)
  ∧ ttlAt now k d ≠ -1
  ∧ 0 ≤ countAt now k d ≤ Z.max 0 cap
  ∧ (T ≤ now → ttlAt now k d ≤ w).
Proof.
  intros Hw Hk. unfold ttlAt, countAt, Redis.TTL, Redis.GET, Redis.find. simpl.
  destruct (d !! k) as [e|]; simpl in *; [|repeat split; lia].
  destruct (Redis.expired now e) eqn:Hex; simpl; [repeat split; lia|].
  destruct Hk as [Hv (t & Ht & Hb)]. rewrite Ht.
  unfold Redis.expired in Hex. rewrite Ht in Hex. apply Z.ltb_ge in Hex.
  split; [split; [done|by exists t]|].
  split.
  { assert (0 ≤ (t - now + 500) / 1000) by (apply Z.div_pos; lia). lia. }
  split; [lia|]. intros HT.
  assert ((t - now + 500) / 1000 < w + 1); [|lia].
  apply Z.div_lt_upper_bound; lia.
Qed.

Section KeptStore.

Variable REDIS_KEYS : RedisKeys.
Variables (sid : string) (prefs : RateLimitPrefs).

Let mk := PUSH_RATE_MINUTE REDIS_KEYS sid.
Let hk := PUSH_RATE_HOUR REDIS_KEYS sid.

Hypothesis keys_distinct : mk ≠ hk.

Lemma checkAndRecord_keeps T now d :
  now ≤ T → kept REDIS_KEYS sid prefs T d →
  kept REDIS_KEYS sid prefs T (checkAndRecord REDIS_KEYS now sid prefs d).2.
Proof.
  intros HT [Hkm Hkh].
  pose proof (checkAndRecord_allowed_iff REDIS_KEYS now sid prefs d) as Hiff.
  rewrite checkAndRecord_store by done. fold mk hk in Hkm, Hkh, Hiff |- *.
  destruct (allowed _); [|done].
  destruct Hiff as [[Hm Hh] _]; [done|].
  destruct (entry_kept_reads T 60 (maxPerMinute prefs) now mk d) as (Hfm & _);
    [lia|done|].
  destruct (entry_kept_reads T 3600 (maxPerHour prefs) now hk d) as (Hfh & _);
    [lia|done|].
  split; unfold kept; fold mk hk.
  - rewrite lookup_insert_ne, lookup_insert_eq by done.
    by apply entry_kept_bumped.
  - rewrite lookup_insert_eq. by apply entry_kept_bumped.
Qed.

Lemma calls_keep T times : ∀ d,
  Forall (λ t, t ≤ T) times → kept REDIS_KEYS sid prefs T d →
  kept REDIS_KEYS sid prefs T (calls REDIS_KEYS sid prefs times d).2.
Proof.
  induction times as [|t times IH]; intros d Hts Hk; [done|].
  apply Forall_cons in Hts as [Ht Hts]. rewrite calls_cons.
  pose proof (checkAndRecord_keeps T t d Ht Hk) as Hk1.
  destruct (checkAndRecord REDIS_KEYS t sid prefs d) as [r d1].
  specialize (IH d1 Hts Hk1).
  by destruct (calls REDIS_KEYS sid prefs times d1) as [rs d2].
Qed.

(** X8.  The limiter never leaves a counter without expiry or over its
    cap.  From a store whose two keys, where present, hold a count from 1
    to the cap and an expiry, in particular from the empty store, every
    sequence of calls leads to such a store; at every instant the TTL of
    either key is not -1 and its count lies between 0 and [max 0 cap]. *)
Theorem counters_always_expire (T : Z) (times : list Z) (d : Redis.db) :
  kept REDIS_KEYS sid prefs T d → Forall (λ t, t ≤ T) times →
  let d' := (calls REDIS_KEYS sid prefs times d).2 in
  kept REDIS_KEYS sid prefs T d'
  ∧ ∀ now,
      ttlAt now mk d' ≠ -1 ∧ ttlAt now hk d' ≠ -1
      ∧ 0 ≤ countAt now mk d' ≤ Z.max 0 (maxPerMinute prefs)
      ∧ 0 ≤ countAt now hk d' ≤ Z.max 0 (maxPerHour prefs).
Proof.
  intros Hk Hts d'. pose proof (calls_keep T times d Hts Hk) as Hk'.
  fold d' in Hk'. split; [done|]. intros now. destruct Hk' as [Hkm Hkh].
  destruct (entry_kept_reads T 60 _ now _ _ ltac:(lia) Hkm) as (_ & ? & ? & _).
  destruct (entry_kept_reads T 3600 _ now _ _ ltac:(lia) Hkh) as (_ & ? & ? & _).
  done.
Qed.

(** X9.  Reset times stay within the window.  After calls at instants up
    to [T] from such a store, [getStatus] and [checkAndRecord] at any
    instant from [T] on report between 1 and 60 seconds for the minute
    window and between 1 and 3600 for the hour window. *)
Theorem reset_times_within_window (T now : Z) (times : list Z) (d : Redis.db) :
  kept REDIS_KEYS sid prefs T d → Forall (λ t, t ≤ T) times → T ≤ now →
  let d' := (calls REDIS_KEYS sid prefs times d).2 in
  let status := (getStatus REDIS_KEYS now sid prefs d').1 in
  let r := (checkAndRecord REDIS_KEYS now sid prefs d').1 in
  1 ≤ statusResetMinuteIn status ≤ 60
  ∧ 1 ≤ statusResetHourIn status ≤ 3600
  ∧ 1 ≤ resetMinuteIn r ≤ 60
  ∧ 1 ≤ resetHourIn r ≤ 3600.
Proof.
  intros Hk Hts HT d' status r.
  pose proof (calls_keep T times d Hts Hk) as [Hkm Hkh]. fold d' in Hkm, Hkh.
  destruct (entry_kept_reads T 60 _ now _ _ ltac:(lia) Hkm) as (_ & _ & _ & Htm).
  destruct (entry_kept_reads T 3600 _ now _ _ ltac:(lia) Hkh) as (_ & _ & _ & Hth).
  specialize (Htm HT). specialize (Hth HT). fold mk hk in Htm, Hth.
  assert (∀ ttl w, 1 ≤ w → ttl ≤ w →
            1 ≤ (if ttl >? 0 then ttl else w) ≤ w) as Hin.
  { intros ttl w ? ?. rewrite Z.gtb_ltb. destruct (0 <? ttl) eqn:E; lia. }
  assert (∀ ttl w, 1 ≤ w → ttl ≤ w →
            1 ≤ (if ttl <? 0 then w
                 else if ttl >? 0 then ttl else w) ≤ w) as Hin'.
  { intros ttl w ? ?. destruct (ttl <? 0); [lia|]. by apply Hin. }
  subst status r. rewrite getStatus_reads. fold mk hk. simpl.
  split; [by apply Hin|]. split; [by apply Hin|].
  destruct (Z.le_gt_cases (maxPerMinute prefs) (countAt now mk d')) as [Hm|Hm].
  { rewrite checkAndRecord_minute_exceeded by done. simpl. fold mk hk.
    split; by apply Hin. }
  destruct (Z.le_gt_cases (maxPerHour prefs) (countAt now hk d')) as [Hh|Hh].
  { rewrite checkAndRecord_hour_exceeded by done. simpl. fold mk hk.
    split; by apply Hin. }
  rewrite checkAndRecord_recorded by done. simpl. fold mk hk.
  split; by apply Hin'.
Qed.

End KeptStore.

(** X10.  In the last half second of a window the store rounds the TTL
    to 0, and the limiter then reports the full window as the time to
    reset: 60 for the minute key and 3600 for the hour key. *)
Theorem last_half_second_reports_full_window REDIS_KEYS sid prefs now d :
  (∀ e t, Redis.find now (PUSH_RATE_MINUTE REDIS_KEYS sid) d = Some e →
     Redis.expireAt e = Some t → t - now < 500 →
     ttlAt now (PUSH_RATE_MINUTE REDIS_KEYS sid) d = 0
     ∧ statusResetMinuteIn (getStatus REDIS_KEYS now sid prefs d).1 = 60
     ∧ resetMinuteIn (checkAndRecord REDIS_KEYS now sid prefs d).1 = 60)
  ∧ (∀ e t, Redis.find now (PUSH_RATE_HOUR REDIS_KEYS sid) d = Some e →
       Redis.expireAt e = Some t → t - now < 500 →
       ttlAt now (PUSH_RATE_HOUR REDIS_KEYS sid) d = 0
       ∧ statusResetHourIn (getStatus REDIS_KEYS now sid prefs d).1 = 3600
       ∧ resetHourIn (checkAndRecord REDIS_KEYS now sid prefs d).1 = 3600).
Proof.
  assert (∀ k e t, Redis.find now k d = Some e → Redis.expireAt e = Some t →
            t - now < 500 → ttlAt now k d = 0) as Hzero.
  { intros k e t Hf Hex Hlt. unfold ttlAt, Redis.TTL. simpl. rewrite Hf, Hex.
    apply find_live in Hf. unfold Redis.expired in Hf. rewrite Hex in Hf.
    apply Z.ltb_ge in Hf. apply Z.div_small. lia. }
  destruct (nonpositive_ttl_full_window REDIS_KEYS sid prefs now d)
    as [Hminute Hhour].
  split; intros e t Hf Hex Hlt; pose proof (Hzero _ _ _ Hf Hex Hlt) as Hz;
    (split; [done|]).
  - destruct Hminute as [? ?]; [lia|done].
  - destruct Hhour as [? ?]; [lia|done].
Qed.

(** ** The rate limiter on sample data, continued *)

Lemma example_keys_collision_free : collision_free example_keys.
Proof.
  split; [|split]; intros a b; simpl.
  - intros H. discriminate H.
  - intros H. cbn in H. by injection H.
  - intros H. cbn in H. by injection H.
Qed.

Lemma sessions_independent_witness :
  (getStatus example_keys 7000 "tablet" example_prefs five_calls).1
  = (getStatus example_keys 7000 "tablet" example_prefs ∅).1
  ∧ (checkAndRecord example_keys 7000 "tablet" example_prefs five_calls).1
    = (checkAndRecord example_keys 7000 "tablet" example_prefs ∅).1.
Proof.
  destruct (sessions_independent example_keys "phone" "tablet" example_prefs
              example_prefs [1000; 2000; 3000; 4000; 5000] 6000 7000 ∅
              example_keys_collision_free)
    as (Hstatus & Hcall & _).
  - discriminate.
  - split; [exact Hstatus | exact Hcall].
Defined.

Lemma status_agrees_with_last_call_witness :
  (getStatus example_keys 6000 "phone" example_prefs
     (checkAndRecord example_keys 6000 "phone" example_prefs five_calls).2).1
  = {| statusRemainingMinute := 0; statusRemainingHour := 95;
       statusResetMinuteIn := 55; statusResetHourIn := 3595 |}.
Proof.
  rewrite (status_agrees_with_last_call example_keys "phone" example_prefs
             (example_keys_distinct "phone") 6000 five_calls).
  vm_compute. reflexivity.
Defined.

Lemma window_opened_once_witness :
  (checkAndRecord example_keys 1000 "phone" example_prefs ∅).2
    !! PUSH_RATE_MINUTE example_keys "phone"
  = Some (Redis.Entry 1 (Some (1000 + 60 * 1000))).
Proof.
  assert (allowed (checkAndRecord example_keys 1000 "phone" example_prefs ∅).1
          = true) as Hallowed by (vm_compute; reflexivity).
  destruct (window_opened_once example_keys "phone" example_prefs
              (example_keys_distinct "phone") 1000 ∅ Hallowed
              (PUSH_RATE_MINUTE example_keys "phone") 60
              (or_introl (conj eq_refl eq_refl))) as (Hfresh & _ & _).
  apply Hfresh. reflexivity.
Defined.

Lemma denial_lasts_until_expiry_witness :
  allowed
    (checkAndRecord example_keys 61000 "phone" example_prefs
       (checkAndRecord example_keys 6000 "phone" example_prefs five_calls).2).1
  = false.
Proof.
  apply (denial_lasts_until_expiry example_keys "phone" example_prefs
           6000 61000 five_calls).
  - vm_compute. reflexivity.
  - lia.
  - intros e t He Ht. vm_compute in He. injection He as <-.
    injection Ht as <-. lia.
Defined.

Lemma zero_cap_always_denies_witness :
  (calls example_keys "phone" closed_prefs [1000; 70000; 4000000] ∅).2 = ∅
  ∧ Forall (λ r, allowed r = false)
      (calls example_keys "phone" closed_prefs [1000; 70000; 4000000] ∅).1.
Proof.
  apply (zero_cap_always_denies example_keys "phone" closed_prefs
           [1000; 70000; 4000000] ∅).
  - left. simpl. lia.
  - intros t. vm_compute. split; discriminate.
Defined.

Lemma burst_first_calls_allowed_witness :
  let results :=
    (calls example_keys "phone" burst_prefs [1000; 1000; 1001; 1002] ∅).1 in
  length results = 4%nat
  ∧ (∀ (i : nat) r, results !! i = Some r →
       (allowed r = true ↔ Z.of_nat i < 2)
       ∧ (allowed r = false → exceededLimit r = Some minute)).
Proof.
  apply (burst_first_calls_allowed example_keys "phone" burst_prefs
           (example_keys_distinct "phone") 1000 [1000; 1000; 1001; 1002] ∅).
  - reflexivity.
  - reflexivity.
  - simpl. lia.
  - repeat constructor; lia.
Defined.

Lemma counters_always_expire_witness :
  ttlAt 5200 (PUSH_RATE_MINUTE example_keys "phone") five_calls ≠ -1
  ∧ 0 ≤ countAt 5200 (PUSH_RATE_MINUTE example_keys "phone") five_calls
      ≤ Z.max 0 5.
Proof.
  destruct (counters_always_expire example_keys "phone" example_prefs
              (example_keys_distinct "phone") 5000
              [1000; 2000; 3000; 4000; 5000] ∅) as [_ Hreads].
  - split; exact I.
  - repeat constructor; lia.
  - destruct (Hreads 5200) as (Hm & _ & Hc & _).
    split; [exact Hm | exact Hc].
Defined.

Lemma reset_times_within_window_witness :
  1 ≤ statusResetMinuteIn
        (getStatus example_keys 5200 "phone" example_prefs five_calls).1 ≤ 60
  ∧ 1 ≤ resetHourIn
          (checkAndRecord example_keys 5200 "phone" example_prefs
             five_calls).1 ≤ 3600.
Proof.
  destruct (reset_times_within_window example_keys "phone" example_prefs
              (example_keys_distinct "phone") 5000 5200
              [1000; 2000; 3000; 4000; 5000] ∅) as (Hm & _ & _ & Hh).
  - split; exact I.
  - repeat constructor; lia.
  - lia.
  - split; [exact Hm | exact Hh].
Defined.

Lemma last_half_second_reports_full_window_witness :
  ttlAt 60800 (PUSH_RATE_MINUTE example_keys "phone") five_calls = 0
  ∧ statusResetMinuteIn
      (getStatus example_keys 60800 "phone" example_prefs five_calls).1 = 60
  ∧ resetMinuteIn
      (checkAndRecord example_keys 60800 "phone" example_prefs five_calls).1
    = 60.
Proof.
  destruct (last_half_second_reports_full_window example_keys "phone"
              example_prefs 60800 five_calls) as [Hminute _].
  apply (Hminute (Redis.Entry 5 (Some 61000)) 61000).
  - vm_compute. reflexivity.
  - reflexivity.
  - lia.
Defined.

(** ** The module-level instance *)

(** X11.  [getPushRateLimiter] gives [null] before any initialisation;
    after a run of initialisations it gives the instance the last one
    returned, built on the last connection. *)
Theorem last_initialisation_wins {Connection : Type}
    (earlier : list Connection) (connection : Connection)
    (rateLimiterInstance : option (PushRateLimiter Connection)) :
  (getPushRateLimiter (initialised [] (None (A := PushRateLimiter Connection)))).1
  = None
  ∧ (getPushRateLimiter
       (initialised (earlier ++ [connection]) rateLimiterInstance)).1
    = Some (initPushRateLimiter connection
              (initialised earlier rateLimiterInstance)).1
  ∧ redis <$> (getPushRateLimiter
                 (initialised (earlier ++ [connection]) rateLimiterInstance)).1
    = Some connection.
Proof.
  unfold initialised. rewrite foldl_app. done.
Qed.

(** * More on quiet hours *)

(** X12.  With quiet hours disabled, or a start or end that is [null] or
    the empty string, it is never quiet time and everything is sent:
    every severity and every event.  No host function is called, so this
    holds on any host. *)
Theorem quiet_hours_off_always_sends platform prefs :
  quietHoursEnabled prefs = false
  ∨ quietHoursStart prefs = None ∨ quietHoursStart prefs = Some ""
  ∨ quietHoursEnd prefs = None ∨ quietHoursEnd prefs = Some "" →
  isQuietTime platform prefs = Normal false
  ∧ (∀ severity, shouldSend platform prefs severity = Normal true)
  ∧ (∀ eventType, shouldSendEvent platform prefs eventType = Normal true).
Proof.
  intros Hoff.
  assert (isQuietTime platform prefs = Normal false) as Hq.
  { unfold isQuietTime.
    destruct (quietHoursEnabled prefs); [|done].
    destruct Hoff as [? | [-> | [-> | [-> | ->]]]]; try done;
      by destruct (truthy (quietHoursStart prefs)). }
  assert (∀ severity, shouldSend platform prefs severity = Normal true) as Hs.
  { intros severity. unfold shouldSend. by rewrite Hq. }
  split; [done|]. split; [done|].
  intros eventType. unfold shouldSendEvent. by destruct (bool_decide _).
Qed.

(** X13.  An empty time zone is read as UTC. *)
Theorem empty_timezone_is_UTC platform prefs severity :
  quietHoursTimezone prefs = "" →
  userTime platform prefs = userTime platform (with_timezone "UTC" prefs)
  ∧ isQuietTime platform prefs
    = isQuietTime platform (with_timezone "UTC" prefs)
  ∧ shouldSend platform prefs severity
    = shouldSend platform (with_timezone "UTC" prefs) severity.
Proof.
  intros Htz.
  assert (userTime platform prefs
          = userTime platform (with_timezone "UTC" prefs)) as Hu
    by (unfold userTime; simpl; by rewrite Htz).
  assert (isQuietTime platform prefs
          = isQuietTime platform (with_timezone "UTC" prefs)) as Hq
    by (unfold isQuietTime; by rewrite Hu).
  split; [done|]. split; [done|]. unfold shouldSend. by rewrite Hq.
Qed.

Lemma hourMinute_two_fields (a b rest : string) :
  Forall (λ c, c ≠ ":"%char) (String.list_ascii_of_string a) →
  Forall (λ c, c ≠ ":"%char) (String.list_ascii_of_string b) →
  hourMinute (a +:+ ":" +:+ b +:+ ":" +:+ rest) = hourMinute (a +:+ ":" +:+ b)
  ∧ hourMinute (a +:+ ":" +:+ b) = (Some (JS.Number a), Some (JS.Number b)).
Proof.
  intros Ha Hb. unfold hourMinute.
  change (":" +:+ b +:+ ":" +:+ rest)
    with (String ":"%char (b +:+ String ":"%char rest)).
  change (":" +:+ b) with (String ":"%char b).
  rewrite !split_field, (split_last _ b) by done.
  split; [|done]. simpl. by destruct (JS.split ":" rest).
Qed.

Lemma field_nonempty (a b : string) :
  truthy (Some (a +:+ ":" +:+ b)) = Some (a +:+ ":" +:+ b).
Proof. by destruct a. Qed.

(** [isQuietTime] uses the start and end strings through their first two
    fields only. *)
Lemma isQuietTime_fields platform prefs (s f s' f' : string) :
  truthy (Some s) = Some s → truthy (Some f) = Some f →
  truthy (Some s') = Some s' → truthy (Some f') = Some f' →
  hourMinute s = hourMinute s' → hourMinute f = hourMinute f' →
  isQuietTime platform (with_times (Some s) (Some f) prefs)
  = isQuietTime platform (with_times (Some s') (Some f') prefs).
Proof.
  intros Hs Hf Hs' Hf' Hhs Hhf. unfold isQuietTime, userTime.
  cbn [with_times quietHoursEnabled quietHoursStart quietHoursEnd
       quietHoursTimezone].
  by rewrite Hs, Hf, Hs', Hf', Hhs, Hhf.
Qed.

(** X14.  Only the first two fields of the start and the end count: a
    time with further fields, such as seconds, decides as the same time
    without them. *)
Theorem fields_after_minutes_ignored platform prefs (a b rest a' b' rest' : string) :
  Forall (λ c, c ≠ ":"%char) (String.list_ascii_of_string a) →
  Forall (λ c, c ≠ ":"%char) (String.list_ascii_of_string b) →
  Forall (λ c, c ≠ ":"%char) (String.list_ascii_of_string a') →
  Forall (λ c, c ≠ ":"%char) (String.list_ascii_of_string b') →
  isQuietTime platform
    (with_times (Some (a +:+ ":" +:+ b +:+ ":" +:+ rest))
                (Some (a' +:+ ":" +:+ b' +:+ ":" +:+ rest')) prefs)
  = isQuietTime platform
      (with_times (Some (a +:+ ":" +:+ b)) (Some (a' +:+ ":" +:+ b')) prefs).
Proof.
  intros Ha Hb Ha' Hb'.
  destruct (hourMinute_two_fields a b rest Ha Hb) as [Hs _].
  destruct (hourMinute_two_fields a' b' rest' Ha' Hb') as [Hf _].
  apply isQuietTime_fields; try done; apply field_nonempty.
Qed.

(** X17.  Only [high] with the override set is treated apart.  [warning]
    decides as [low]; without the override every severity and every
    event decides as [low]; and the override changes nothing for a
    severity other than [high] or an event other than [server_down]. *)
Theorem only_critical_override_matters platform prefs :
  shouldSend platform prefs warning = shouldSend platform prefs low
  ∧ (quietHoursOverrideCritical prefs = false →
     ∀ severity eventType,
       shouldSend platform prefs severity = shouldSend platform prefs low
       ∧ shouldSendEvent platform prefs eventType
         = shouldSend platform prefs low)
  ∧ (∀ overrideCritical eventType severity,
       eventType ≠ server_down → severity ≠ high →
       shouldSendEvent platform (with_override overrideCritical prefs) eventType
       = shouldSendEvent platform prefs eventType
       ∧ shouldSend platform (with_override overrideCritical prefs) severity
         = shouldSend platform prefs severity).
Proof.
  assert (∀ b, isQuietTime platform (with_override b prefs)
               = isQuietTime platform prefs) as Hq by done.
  split; [|split].
  - unfold shouldSend.
    destruct (isQuietTime platform prefs) as [[]|]; simpl;
      by rewrite ?andb_false_r.
  - intros Hov severity eventType.
    unfold shouldSendEvent, shouldSend. rewrite Hov.
    destruct (isQuietTime platform prefs) as [[]|]; simpl;
      by destruct (bool_decide (eventType = server_down)).
  - intros b eventType severity Hev Hsev.
    unfold shouldSendEvent, shouldSend. rewrite Hq.
    rewrite (bool_decide_eq_false_2 _ Hev).
    rewrite (bool_decide_eq_false_2 _ Hsev). simpl.
    destruct (isQuietTime platform prefs) as [[]|]; simpl;
      by rewrite ?andb_false_r.
Qed.

(** X18.  [isQuietTime] throws exactly when quiet hours are on with a
    start and an end, and the host knows neither the configured zone nor
    UTC; [shouldSend] and [shouldSendEvent] throw exactly when
    [isQuietTime] does. *)
Theorem isQuietTime_throws_iff platform prefs :
  let zone := default "UTC" (truthy (Some (quietHoursTimezone prefs))) in
  (isQuietTime platform prefs = Throw RangeError ↔
     quietHoursEnabled prefs = true
     ∧ is_Some (truthy (quietHoursStart prefs))
     ∧ is_Some (truthy (quietHoursEnd prefs))
     ∧ Intl_format platform zone (Date_now platform) = None
     ∧ Intl_format platform "UTC" (Date_now platform) = None)
  ∧ (∀ severity,
       shouldSend platform prefs severity = Throw RangeError
       ↔ isQuietTime platform prefs = Throw RangeError)
  ∧ (∀ eventType,
       shouldSendEvent platform prefs eventType = Throw RangeError
       ↔ isQuietTime platform prefs = Throw RangeError).
Proof.
  intros zone.
  assert (∀ severity,
            shouldSend platform prefs severity = Throw RangeError
            ↔ isQuietTime platform prefs = Throw RangeError) as Hs.
  { intros severity. unfold shouldSend.
    destruct (isQuietTime platform prefs) as [[]|[]]; simpl; try done.
    by destruct (_ && _). }
  split; [|split; [done|]].
  - unfold isQuietTime, userTime. fold zone.
    destruct (quietHoursEnabled prefs); [|by split; [|intros (?&_)]].
    destruct (truthy (quietHoursStart prefs)) as [s|];
      [|split; [done|by intros (_&[? ?]&_)]].
    destruct (truthy (quietHoursEnd prefs)) as [f|];
      [|split; [done|by intros (_&_&[? ?]&_)]].
    destruct (Intl_format platform zone _) as [local|].
    + destruct (hourMinute local), (hourMinute s), (hourMinute f).
      destruct (JS.gt _ _); (split; [done|by intros (_&_&_&?&_)]).
    + destruct (Intl_format platform "UTC" _) as [local|].
      * destruct (hourMinute local), (hourMinute s), (hourMinute f).
        destruct (JS.gt _ _); (split; [done|by intros (_&_&_&_&?)]).
      * split; [|done]. intros _. by eauto 10.
  - intros eventType. unfold shouldSendEvent.
    destruct (bool_decide _); apply Hs.
Qed.

(** X16.  Swapping start and end gives the rest of the day.  For two
    different times of day, every minute is quiet under (start, end) or
    under (end, start), and under both exactly at the start and at the
    end. *)
Theorem swapped_window_covers_the_rest platform prefs (sh sm eh em ch cm : nat) :
  quietHoursEnabled prefs = true →
  (sh < 24)%nat → (sm < 60)%nat → (eh < 24)%nat → (em < 60)%nat →
  (ch < 24)%nat → (cm < 60)%nat →
  userTime platform prefs = Normal (HHMM ch cm) →
  let current := Z.of_nat ch * 60 + Z.of_nat cm in
  let start := Z.of_nat sh * 60 + Z.of_nat sm in
  let finish := Z.of_nat eh * 60 + Z.of_nat em in
  start ≠ finish →
  ∃ quiet swapped,
    isQuietTime platform
      (with_times (Some (HHMM sh sm)) (Some (HHMM eh em)) prefs) = Normal quiet
    ∧ isQuietTime platform
        (with_times (Some (HHMM eh em)) (Some (HHMM sh sm)) prefs)
      = Normal swapped
    ∧ quiet || swapped = true
    ∧ (quiet && swapped = true ↔ current = start ∨ current = finish).
Proof.
  intros He ? ? ? ? ? ? Hu current start finish Hne.
  eexists _, _.
  split; [by apply (isQuietTime_HHMM platform _ sh sm eh em ch cm)|].
  split; [by apply (isQuietTime_HHMM platform _ eh em sh sm ch cm)|].
  fold current start finish. unfold inWindow.
  destruct (Z.ltb_spec finish start), (Z.ltb_spec start finish),
    (Z.leb_spec start current), (Z.leb_spec current finish),
    (Z.leb_spec finish current), (Z.leb_spec current start);
    simpl; split; try done; try lia; split; (done || lia || intros; lia).
Qed.

(** ** Numbers written in decimal *)

Lemma bytes_app (a b : string) : JS.bytes (a +:+ b) = JS.bytes a ++ JS.bytes b.
Proof.
  unfold JS.bytes. induction a as [|c a IH]; [done|].
  simpl. f_equal. apply IH.
Qed.

Lemma digits_decimal (l : list Z) : ∀ acc n,
  Forall decimal_digit l →
  JS.digits 10 acc n l = (decimal_value acc l, n + Z.of_nat (length l), []).
Proof.
  induction l as [|c l IH]; intros acc n Hall; simpl.
  { by rewrite Z.add_0_r. }
  apply Forall_cons in Hall as [Hc Hall]. unfold decimal_digit in Hc.
  unfold JS.digit.
  destruct ((48 <=? c) && (c <=? 57)) eqn:E.
  2:{ apply andb_false_iff in E as [E|E]; lia. }
  destruct (c - 48 <? 10) eqn:E'; [|lia].
  rewrite IH by done. rewrite Nat2Z.inj_succ.
  by replace (n + 1 + Z.of_nat (length l))
    with (n + Z.succ (Z.of_nat (length l))) by lia.
Qed.

Lemma white_length_none (chars : list (list Z)) (l : list Z) :
  Forall (λ p, JS.starts_with p l = false) chars →
  JS.white_length chars l = 0%nat.
Proof.
  intros Hall. unfold JS.white_length.
  replace (filter (λ p, JS.starts_with p l = true) chars) with (@nil (list Z));
    [done|].
  symmetry. induction Hall as [|p chars Hp _ IH]; [done|].
  rewrite filter_cons, decide_False; [done|]. by rewrite Hp.
Qed.

Lemma white_length_digit (c : Z) (l : list Z) :
  decimal_digit c →
  JS.white_length JS.StrWhiteSpaceChar (c :: l) = 0%nat
  ∧ JS.white_length (reverse <$> JS.StrWhiteSpaceChar) (c :: l) = 0%nat.
Proof.
  unfold decimal_digit. intros Hc.
  assert (∀ p ps, p ≠ c → JS.starts_with (p :: ps) (c :: l) = false) as Hno.
  { intros p ps Hp. simpl. apply Z.eqb_neq in Hp. by rewrite Hp. }
  split; apply white_length_none.
  - unfold JS.StrWhiteSpaceChar.
    repeat (apply Forall_cons; split; [apply Hno; lia|]). constructor.
  - let chars := eval vm_compute in (reverse <$> JS.StrWhiteSpaceChar) in
    change (reverse <$> JS.StrWhiteSpaceChar) with chars.
    repeat (apply Forall_cons; split; [apply Hno; lia|]). constructor.
Qed.

Lemma trim_start_digit chars (c : Z) (l : list Z) :
  JS.white_length chars (c :: l) = 0%nat →
  JS.trim_start chars 0 (c :: l) = c :: l.
Proof. intros H. simpl. by rewrite H. Qed.

Lemma trim_decimal (l : list Z) :
  l ≠ [] → Forall decimal_digit l → JS.trim l = l.
Proof.
  intros Hne Hall. unfold JS.trim.
  destruct l as [|c l]; [done|].
  pose proof Hall as Hall'. apply Forall_cons in Hall' as [Hc _].
  rewrite trim_start_digit by by apply white_length_digit.
  destruct (reverse (c :: l)) as [|c' l'] eqn:Hrev.
  { apply (f_equal length) in Hrev. rewrite length_reverse in Hrev. done. }
  assert (decimal_digit c') as Hc'.
  { apply (Forall_reverse decimal_digit) in Hall. rewrite Hrev in Hall.
    by apply Forall_cons in Hall as [? _]. }
  rewrite trim_start_digit by by apply white_length_digit.
  by rewrite <- Hrev, reverse_involutive.
Qed.

Lemma NonDecimal_decimal (l : list Z) :
  Forall decimal_digit l → JS.NonDecimalIntegerLiteral l = None.
Proof.
  intros Hall. destruct l as [|c l]; [done|].
  destruct (decide (c = 48)) as [-> | Hc].
  - destruct l as [|p l]; [done|].
    apply Forall_cons in Hall as [_ Hall].
    apply Forall_cons in Hall as [Hp _]. unfold decimal_digit in Hp.
    unfold JS.NonDecimalIntegerLiteral.
    replace ((p =? 120) || (p =? 88)) with false
      by (symmetry; apply orb_false_iff; split; apply Z.eqb_neq; lia).
    replace ((p =? 111) || (p =? 79)) with false
      by (symmetry; apply orb_false_iff; split; apply Z.eqb_neq; lia).
    replace ((p =? 98) || (p =? 66)) with false
      by (symmetry; apply orb_false_iff; split; apply Z.eqb_neq; lia).
    destruct (JS.digits 0 0 0 l) as [[v n] rest]. by destruct rest.
  - unfold JS.NonDecimalIntegerLiteral. by repeat case_match.
Qed.

(** [Number] of a run of decimal digits is the number they denote. *)
Lemma Number_decimal (s : string) :
  s ≠ "" → Forall decimal_digit (JS.bytes s) →
  JS.Number s = JS.Fin (decimal_value 0 (JS.bytes s) # 1).
Proof.
  intros Hne Hall. unfold JS.Number.
  assert (JS.bytes s ≠ []) as Hne' by by destruct s.
  rewrite trim_decimal by done.
  destruct (JS.bytes s) as [|c l] eqn:Hb; [done|].
  rewrite NonDecimal_decimal by done.
  pose proof Hall as Hall'. apply Forall_cons in Hall' as [Hc _].
  unfold decimal_digit in Hc.
  destruct (Z.eqb_spec c 43) as [?|_]; [lia|].
  destruct (Z.eqb_spec c 45) as [?|_]; [lia|].
  unfold JS.StrUnsignedDecimalLiteral.
  rewrite decide_False.
  2:{ intros Heq. vm_compute in Heq. injection Heq as Heq _. lia. }
  rewrite digits_decimal by done. simpl JS.ExponentPart.
  destruct (Z.ltb_spec 0 (0 + Z.of_nat (length (c :: l)) + 0)) as [_|E3].
  2:{ simpl length in E3. lia. }
  unfold JS.scale. simpl. by rewrite Z.mul_1_r.
Qed.

Lemma byte_of_digit (x : N) :
  (x < 10)%N →
  Z.of_N (Ascii.N_of_ascii (pretty_N_char x)) = 48 + Z.of_N x.
Proof.
  intros Hx.
  assert (x = 0 ∨ x = 1 ∨ x = 2 ∨ x = 3 ∨ x = 4 ∨ x = 5 ∨ x = 6 ∨ x = 7
          ∨ x = 8 ∨ x = 9)%N as Hcases by lia.
  by repeat (destruct Hcases as [-> | Hcases]; [done|]); subst.
Qed.

Lemma bytes_pretty_N_go (x : N) : ∀ s,
  JS.bytes (pretty_N_go x s) = JS.bytes (pretty_N_go x "") ++ JS.bytes s.
Proof.
  induction (N.lt_wf_0 x) as [x _ IH]; intros s.
  destruct (decide (x = 0%N)) as [-> | Hx]; [done|].
  rewrite !(pretty_N_go_step x) by lia.
  rewrite (IH (x `div` 10)%N) by (apply N.div_lt; lia).
  rewrite (IH (x `div` 10)%N ltac:(apply N.div_lt; lia) (String _ "")).
  by rewrite <- app_assoc.
Qed.

Lemma pretty_N_go_decimal (x : N) :
  Forall decimal_digit (JS.bytes (pretty_N_go x ""))
  ∧ decimal_value 0 (JS.bytes (pretty_N_go x "")) = Z.of_N x
  ∧ (x ≠ 0%N → JS.bytes (pretty_N_go x "") ≠ []).
Proof.
  induction (N.lt_wf_0 x) as [x _ IH].
  destruct (decide (x = 0%N)) as [-> | Hx]; [done|].
  rewrite (pretty_N_go_step x) by lia. rewrite bytes_pretty_N_go.
  destruct (IH (x `div` 10)%N) as (Hall & Hval & _); [apply N.div_lt; lia|].
  assert (x `mod` 10 < 10)%N as Hmod by (apply N.mod_lt; lia).
  change (JS.bytes (String (pretty_N_char (x `mod` 10)) ""))
    with [Z.of_N (Ascii.N_of_ascii (pretty_N_char (x `mod` 10)))].
  rewrite byte_of_digit by done.
  pose proof (N.div_mod x 10 ltac:(lia)) as Hdm.
  set (q := (x `div` 10)%N) in *. set (r := (x `mod` 10)%N) in *.
  split; [|split].
  - apply Forall_app. split; [done|]. apply Forall_singleton.
    unfold decimal_digit. lia.
  - unfold decimal_value in *. rewrite foldl_app. simpl. rewrite Hval. lia.
  - intros _ Hnil. by apply app_eq_nil in Hnil as [_ ?].
Qed.

Lemma pretty_decimal (x : N) :
  pretty x ≠ ""
  ∧ Forall decimal_digit (JS.bytes (pretty x))
  ∧ decimal_value 0 (JS.bytes (pretty x)) = Z.of_N x.
Proof.
  unfold pretty, pretty_N. case_decide as Hx.
  { subst. split; [done|]. split; [|done].
    apply Forall_singleton. unfold decimal_digit. simpl. lia. }
  destruct (pretty_N_go_decimal x) as (Hall & Hval & Hne).
  split; [|done]. intros Hs. apply (Hne Hx). by rewrite Hs.
Qed.

Lemma decimal_no_colon (s : string) :
  Forall decimal_digit (JS.bytes s) →
  Forall (λ c, c ≠ ":"%char) (String.list_ascii_of_string s).
Proof.
  unfold JS.bytes. rewrite Forall_fmap. intros Hall.
  eapply Forall_impl; [exact Hall|].
  intros c Hc ->. unfold decimal_digit in Hc. simpl in Hc. lia.
Qed.

(** [Number(String(n)) = n] for a natural number [n]. *)
Lemma Number_pretty (n : nat) :
  JS.Number (pretty n) = JS.Fin (Z.of_nat n # 1).
Proof.
  unfold pretty, pretty_nat.
  destruct (pretty_decimal (N.of_nat n)) as (Hne & Hall & Hval).
  rewrite Number_decimal by done. rewrite Hval. by rewrite nat_N_Z.
Qed.

(** X15.  Hours and minutes need no padding and are not checked against
    24 and 60: for natural numbers written in decimal, the minutes since
    midnight are [60 * hour + minute] (the numbers are below 2^53, where
    JavaScript is exact), and a time of day written without padding
    decides as the same time written HH:MM. *)
Theorem unpadded_times_accepted platform prefs (sh sm eh em : nat) :
  Z.of_nat sh * 60 + Z.of_nat sm < 2 ^ 53 →
  Z.of_nat eh * 60 + Z.of_nat em < 2 ^ 53 →
  minutesOf (unpadded sh sm) = JS.Fin (Z.of_nat sh * 60 + Z.of_nat sm # 1)
  ∧ ((sh < 24)%nat → (sm < 60)%nat → (eh < 24)%nat → (em < 60)%nat →
     isQuietTime platform
       (with_times (Some (unpadded sh sm)) (Some (unpadded eh em)) prefs)
     = isQuietTime platform
         (with_times (Some (HHMM sh sm)) (Some (HHMM eh em)) prefs)).
Proof.
  intros _ _.
  assert (∀ h m, hourMinute (unpadded h m)
                 = (Some (JS.Fin (Z.of_nat h # 1)),
                    Some (JS.Fin (Z.of_nat m # 1)))) as Hhm.
  { intros h m.
    destruct (pretty_decimal (N.of_nat h)) as (_ & Hh & _).
    destruct (pretty_decimal (N.of_nat m)) as (_ & Hm & _).
    unfold unpadded.
    destruct (hourMinute_two_fields (pretty h) (pretty m) "")
      as [_ ->]; [by apply decimal_no_colon..|].
    by rewrite !Number_pretty. }
  split.
  - unfold minutesOf. rewrite Hhm. apply minutes_integers.
  - intros ? ? ? ?. apply isQuietTime_fields; try done.
    + apply field_nonempty.
    + apply field_nonempty.
    + rewrite Hhm. symmetry. apply hourMinute_HHMM; lia.
    + rewrite Hhm. symmetry. apply hourMinute_HHMM; lia.
Qed.

(** ** Quiet hours on sample data, continued *)

Lemma quiet_hours_off_always_sends_witness :
  isQuietTime bare_platform off_prefs = Normal false
  ∧ (∀ severity, shouldSend bare_platform off_prefs severity = Normal true)
  ∧ (∀ eventType,
       shouldSendEvent bare_platform off_prefs eventType = Normal true).
Proof.
  apply (quiet_hours_off_always_sends bare_platform off_prefs).
  right. right. left. reflexivity.
Defined.

Lemma empty_timezone_is_UTC_witness :
  isQuietTime (example_platform (utc 23 30)) (night_prefs "")
  = isQuietTime (example_platform (utc 23 30))
      (with_timezone "UTC" (night_prefs "")).
Proof.
  destruct (empty_timezone_is_UTC (example_platform (utc 23 30))
              (night_prefs "") low eq_refl) as (_ & Hquiet & _).
  exact Hquiet.
Defined.

Lemma fields_after_minutes_ignored_witness :
  isQuietTime (example_platform (utc 23 30))
    (with_times (Some "23:00:59") (Some "07:00:00.000") (night_prefs "UTC"))
  = isQuietTime (example_platform (utc 23 30))
      (with_times (Some "23:00") (Some "07:00") (night_prefs "UTC")).
Proof.
  apply (fields_after_minutes_ignored (example_platform (utc 23 30))
           (night_prefs "UTC") "23" "00" "59" "07" "00" "00.000");
    repeat constructor; discriminate.
Defined.

Lemma only_critical_override_matters_witness :
  shouldSendEvent (example_platform (utc 23 30))
    (quiet_between "22:00" "06:00" false) server_down
  = shouldSend (example_platform (utc 23 30))
      (quiet_between "22:00" "06:00" false) low
  ∧ shouldSendEvent (example_platform (utc 23 30))
      (with_override true (quiet_between "22:00" "06:00" false)) server_up
    = shouldSendEvent (example_platform (utc 23 30))
        (quiet_between "22:00" "06:00" false) server_up.
Proof.
  destruct (only_critical_override_matters (example_platform (utc 23 30))
              (quiet_between "22:00" "06:00" false)) as (_ & Hoff & Hflag).
  split.
  - destruct (Hoff eq_refl low server_down) as [_ Hevent]. exact Hevent.
  - destruct (Hflag true server_up low) as [Hevent _];
      [discriminate | discriminate | exact Hevent].
Defined.

Lemma swapped_window_covers_the_rest_witness :
  ∃ quiet swapped,
    isQuietTime (example_platform (utc 12 0))
      (with_times (Some "23:00") (Some "07:00") (night_prefs "UTC"))
    = Normal quiet
    ∧ isQuietTime (example_platform (utc 12 0))
        (with_times (Some "07:00") (Some "23:00") (night_prefs "UTC"))
      = Normal swapped
    ∧ quiet || swapped = true
    ∧ (quiet && swapped = true
       ↔ 12 * 60 + 0 = 23 * 60 + 0 ∨ 12 * 60 + 0 = 7 * 60 + 0).
Proof.
  apply (swapped_window_covers_the_rest (example_platform (utc 12 0))
           (night_prefs "UTC") 23 0 7 0 12 0); (reflexivity || lia).
Defined.

Lemma unpadded_times_accepted_witness :
  minutesOf "7:5" = JS.Fin (7 * 60 + 5 # 1)
  ∧ isQuietTime (example_platform (utc 8 0))
      (with_times (Some "7:5") (Some "9:30") (night_prefs "UTC"))
    = isQuietTime (example_platform (utc 8 0))
        (with_times (Some "07:05") (Some "09:30") (night_prefs "UTC")).
Proof.
  destruct (unpadded_times_accepted (example_platform (utc 8 0))
              (night_prefs "UTC") 7 5 9 30) as [Hminutes Hsame].
  - vm_compute. reflexivity.
  - vm_compute. reflexivity.
  - split; [exact Hminutes|]. apply Hsame; lia.
Defined.
